(** * FlexGet scheduler plugin: schedule schema, reconciliation and CRUD API

    Shallow embedding of [flexget/plugins/daemon/scheduler.py].

    Python values are an inductive type whose dictionaries are finite maps
    with string keys.  An object that the code addresses through [id(...)]
    is a value paired with the address it lives at.  Handlers thread the
    process state (manager, scheduler handle, log) explicitly and either
    return a value or raise. *)

From stdpp Require Import base strings gmap list pretty.
From Stdlib Require Import ZArith QArith.

Set Warnings "-register-all".

Local Open Scope string_scope.
Local Open Scope list_scope.
Local Open Scope Z_scope.

(** ** Python values *)

Inductive value :=
| VNone
| VBool (b : bool)
| VInt (z : Z)
| VFloat (q : Q)
| VStr (s : string)
| VDatetime (t : Z)
| VList (l : list value)
| VDict (d : gmap string value).

(** Truth value of an object, as tested by [if not x]. *)
Definition truthy (v : value) : bool :=
  match v with
  | VNone => false
  | VBool b => b
  | VInt z => negb (z =? 0)
  | VFloat q => negb (Qeq_bool q 0)
  | VStr s => negb (String.eqb s "")
  | VDatetime _ => true
  | VList l => match l with [] => false | _ => true end
  | VDict d => negb (bool_decide (dom d = ∅))
  end.

(** The number a boolean, an integer or a float stands for. *)
Definition num_of (v : value) : option Q :=
  match v with
  | VBool b => Some (if b then 1%Q else 0%Q)
  | VInt z => Some (inject_Z z)
  | VFloat q => Some q
  | _ => None
  end.

(** Python's [==]: numbers and booleans compare across types
    ([False == 0]), containers member by member. *)
Fixpoint py_eq (a b : value) {struct a} : bool :=
  match a, b with
  | VNone, VNone => true
  | VStr s, VStr s' => String.eqb s s'
  | VDatetime t, VDatetime t' => t =? t'
  | VList l, VList l' =>
      (fix go (l l' : list value) : bool :=
         match l, l' with
         | [], [] => true
         | x :: l, y :: l' => py_eq x y && go l l'
         | _, _ => false
         end) l l'
  | VDict d, VDict d' =>
      bool_decide (dom d = dom d') &&
      map_fold (fun k x acc =>
                  acc && match d' !! k with
                         | Some y => py_eq x y
                         | None => false
                         end) true d
  | _, _ =>
      match num_of a, num_of b with
      | Some p, Some q => Qeq_bool p q
      | _, _ => false
      end
  end.

(** ** Exceptions and the state-and-error monad *)

Inductive exn :=
| TypeError (msg : string)
| KeyError (key : string)
| AttributeError (msg : string)
| ValueError (msg : string)
| IOError (msg : string)
| UnknownTimeZoneError
| StructError (msg : string)
| ConflictingIdError (jid : string)
| JobLookupError (jid : string).

Inductive outcome (A : Type) :=
| Return (a : A)
| Raise (e : exn).
Arguments Return {A} a.
Arguments Raise {A} e.

(** ** JSON schema of the [schedules] configuration key *)

Inductive jtype := TObject | TArray | TString | TNumber | TInteger | TBoolean | TNull.

Definition is_type (t : jtype) (v : value) : bool :=
  match t, v with
  | TObject, VDict _ => true
  | TArray, VList _ => true
  | TString, VStr _ => true
  | TNumber, (VInt _ | VFloat _) => true
  | TInteger, VInt _ => true
  | TBoolean, VBool _ => true
  | TNull, VNone => true
  | _, _ => false
  end.

(** A schema is the list of keywords of its dict literal. *)
Inductive keyword :=
| Ktype (ts : list jtype)
| Kproperties (ps : list (string * list keyword))
| Kitems (sub : list keyword)
| Krequired (names : list string)
| KoneOf (subs : list (list keyword))
| Kerror_oneOf (msg : string)
| Kenum (vs : list value)
| Kformat (f : string)
| KadditionalProperties (allowed : bool).

Abbreviation schema := (list keyword).

Definition UNITS : list string := ["minutes"; "hours"; "days"; "weeks"].

Definition interval_schema : schema :=
  [ Ktype [TObject];
    Kproperties [ ("minutes", [Ktype [TNumber]]);
                  ("hours", [Ktype [TNumber]]);
                  ("days", [Ktype [TNumber]]);
                  ("weeks", [Ktype [TNumber]]) ];
    KoneOf (map (fun unit => [Krequired [unit]]) UNITS);
    Kerror_oneOf ("Interval must be specified as one of " +:+ String.concat ", " UNITS);
    KadditionalProperties false ].

Definition cron_schema : schema :=
  [ Ktype [TObject];
    Kproperties [ ("year", [Ktype [TInteger; TString]]);
                  ("month", [Ktype [TInteger; TString]]);
                  ("day", [Ktype [TInteger; TString]]);
                  ("week", [Ktype [TInteger; TString]]);
                  ("day_of_week", [Ktype [TInteger; TString]]);
                  ("hour", [Ktype [TInteger; TString]]);
                  ("minute", [Ktype [TInteger; TString]]) ];
    Kformat "cron_schedule";
    KadditionalProperties false ].

(** The [oneOf] of a schedule item: exactly one trigger kind. *)
Definition trigger_oneOf : list schema :=
  [ [Krequired ["schedule"]]; [Krequired ["interval"]] ].

Definition item_schema : schema :=
  [ Kproperties [ ("tasks", [Ktype [TArray; TString]; Kitems [Ktype [TString]]]);
                  ("interval", interval_schema);
                  ("schedule", cron_schema) ];
    Krequired ["tasks"];
    KoneOf trigger_oneOf;
    Kerror_oneOf "Either `cron` or `interval` must be defined.";
    KadditionalProperties false ].

Definition main_schema : schema :=
  [ KoneOf [ [Ktype [TArray]; Kitems item_schema];
             [Ktype [TBoolean]; Kenum [VBool false]] ] ].

Definition property_names (s : schema) : list string :=
  flat_map (fun k => match k with Kproperties ps => map fst ps | _ => [] end) s.

Section Validation.

(** apscheduler's [CronTrigger] called with the members of the instance
    as keyword arguments: [None] when the trigger is built, otherwise the
    exception it raises. *)
Variable CronTrigger : gmap string value -> option exn.

(** The [cron_schedule] format checker (registered with
    [raises=ValueError]): a [TypeError] of the constructor is re-raised as
    a [ValueError]. *)
Definition is_cron_schedule (instance : value) : outcome bool :=
  match instance with
  | VDict d =>
      match CronTrigger d with
      | None => Return true
      | Some (TypeError _) => Raise (ValueError "Invalid key for schedule.")
      | Some e => Raise e
      end
  | _ => Return true
  end.

(** A format conforms when its checker returns a true value; the
    [ValueError] of the checker makes the instance invalid (an exception of
    another class would leave validation without a verdict, and counts as
    invalid here).  Formats without a checker are not checked. *)
Definition conforms (f : string) (v : value) : bool :=
  if String.eqb f "cron_schedule" then
    match is_cron_schedule v with
    | Return b => b
    | Raise _ => false
    end
  else true.

(** One keyword of a schema against an instance; [names] are the
    property names declared next to the keyword, which
    [additionalProperties] consults. *)
Fixpoint check (names : list string) (k : keyword) (v : value) {struct k} : bool :=
  match k with
  | Ktype ts => existsb (fun t => is_type t v) ts
  | Kproperties ps =>
      match v with
      | VDict d =>
          forallb (fun p : string * schema =>
                     match d !! p.1 with
                     | Some x => forallb (fun k' => check (property_names p.2) k' x) p.2
                     | None => true
                     end) ps
      | _ => true
      end
  | Kitems sub =>
      match v with
      | VList l => forallb (fun x => forallb (fun k' => check (property_names sub) k' x) sub) l
      | _ => true
      end
  | Krequired req =>
      match v with
      | VDict d => forallb (fun name => bool_decide (name ∈ dom d)) req
      | _ => true
      end
  | KoneOf subs =>
      Nat.eqb
        (length (List.filter (fun b : bool => b)
                   (map (fun sub => forallb (fun k' => check (property_names sub) k' v) sub) subs)))
        1
  | Kerror_oneOf _ => true
  | Kenum vs => existsb (py_eq v) vs
  | Kformat f => conforms f v
  | KadditionalProperties allowed =>
      match v with
      | VDict d => allowed || bool_decide (dom d ⊆ list_to_set names)
      | _ => true
      end
  end.

Definition validate (s : schema) (v : value) : bool :=
  forallb (fun k => check (property_names s) k v) s.

End Validation.

(** ** Process state *)

(** A job of the scheduler's job store. *)
Module Job.
Record t := mk {
  id : string;
  name : string;
  args : list value;
  trigger : string;
  trigger_args : gmap string value;
  next_run_time : option Z
}.
End Job.

Record tzinfo := { zone : string }.

Definition utc : tzinfo := {| zone := "UTC" |}.

Record BackgroundScheduler := {
  timezone : tzinfo;
  coalesce : bool;
  misfire_grace_time : Z;
  jobs : list Job.t;
  running : bool
}.

(** A schedule item of the configuration: a dict object, [id(o) = addr o].
    The items of one list are distinct objects. *)
Record schedule := { addr : Z; fields : gmap string value }.

(** The value of [manager.config['schedules']]: [schedules: no] or a list. *)
Inductive schedules_config :=
| Disabled
| Schedules (l : list schedule).

Record Manager := {
  is_daemon : bool;
  config_schedules : option schedules_config;
  engine : list Job.t;
  config_file : option schedules_config;
  config_file_writable : bool
}.

Inductive level := INFO | WARNING.

Inductive call :=
| Add_job (tasks : list value) (jid name trigger : string) (trigger_args : gmap string value)
| Remove_job (jid : string)
| Start
| Shutdown.

(** [scheduler] is the module's global handle.  [alloc] is given by the
    interpreter: the address at which the default schedule, a dict literal
    of [setup_jobs], is allocated.  [calls] is the trace of the calls made
    on the scheduler. *)
Record World := {
  manager : Manager;
  scheduler : option BackgroundScheduler;
  log : list (level * string);
  calls : list call;
  alloc : Z
}.

Definition M (A : Type) : Type := World -> outcome A * World.

#[global] Instance M_ret : MRet M := fun A a w => (Return a, w).

#[global] Instance M_bind : MBind M := fun A B f m w =>
  match m w with
  | (Return a, w') => f a w'
  | (Raise e, w') => (Raise e, w')
  end.

Definition raise {A} (e : exn) : M A := fun w => (Raise e, w).

Definition get_world : M World := fun w => (Return w, w).

Definition log_msg (lvl : level) (msg : string) : M unit := fun w =>
  (Return tt,
   {| manager := manager w; scheduler := scheduler w; log := log w ++ [(lvl, msg)];
      calls := calls w; alloc := alloc w |}).

Definition record (c : call) : M unit := fun w =>
  (Return tt,
   {| manager := manager w; scheduler := scheduler w; log := log w;
      calls := calls w ++ [c]; alloc := alloc w |}).

Definition set_scheduler (s : BackgroundScheduler) : M unit := fun w =>
  (Return tt,
   {| manager := manager w; scheduler := Some s; log := log w;
      calls := calls w; alloc := alloc w |}).

Definition set_manager (m : Manager) : M unit := fun w =>
  (Return tt,
   {| manager := m; scheduler := scheduler w; log := log w;
      calls := calls w; alloc := alloc w |}).

(** Reading an attribute of the global [scheduler], which is [None] until
    the daemon has started. *)
Definition get_scheduler : M BackgroundScheduler := fun w =>
  match scheduler w with
  | Some s => (Return s, w)
  | None => (Raise (AttributeError "'NoneType' object has no attribute"), w)
  end.

Definition set_config (m : Manager) (c : option schedules_config) : Manager :=
  {| is_daemon := is_daemon m; config_schedules := c; engine := engine m;
     config_file := config_file m; config_file_writable := config_file_writable m |}.

Definition set_jobs (s : BackgroundScheduler) (js : list Job.t) : BackgroundScheduler :=
  {| timezone := timezone s; coalesce := coalesce s;
     misfire_grace_time := misfire_grace_time s; jobs := js; running := running s |}.

Definition set_running (s : BackgroundScheduler) (b : bool) : BackgroundScheduler :=
  {| timezone := timezone s; coalesce := coalesce s;
     misfire_grace_time := misfire_grace_time s; jobs := jobs s; running := b |}.

(** ** Identity *)

Definition unicode (z : Z) : string := pretty z.

Section Identity.
(** [hashlib.sha1(...).hexdigest()] and [json.dumps(..., sort_keys=True)]
    of [flexget.utils.json]. *)
Variable sha1_hexdigest : string -> string.
Variable json_dumps_sorted : value -> string.

(** Create a unique id for a schedule item in config. *)
Definition job_id (conf : value) : string :=
  sha1_hexdigest (json_dumps_sorted conf).
End Identity.

(** ** The scheduler and its reconciliation with the configuration *)

Definition default_schedule (a : Z) : schedule :=
  {| addr := a;
     fields := {[ "tasks" := VList [VStr "*"];
                  "interval" := VDict {[ "hours" := VInt 1 ]} ]} |}.

(** Truth value of the configured [schedules] value. *)
Definition config_truthy (c : schedules_config) : bool :=
  match c with
  | Disabled => false
  | Schedules [] => false
  | Schedules (_ :: _) => true
  end.

Definition items (c : schedules_config) : list schedule :=
  match c with
  | Disabled => []
  | Schedules l => l
  end.

Definition get_job (s : BackgroundScheduler) (jid : string) : option Job.t :=
  List.find (fun j => String.eqb (Job.id j) jid) (jobs s).

(** [','.join(tasks)]: every item has to be a string. *)
Fixpoint join_tasks (tasks : list value) : outcome (list string) :=
  match tasks with
  | [] => Return []
  | VStr s :: rest =>
      match join_tasks rest with
      | Return l => Return (s :: l)
      | Raise e => Raise e
      end
  | _ :: _ => Raise (TypeError "sequence item: expected string")
  end.

Definition timezone_note : string :=
  "Local timezone name could not be determined. Scheduler will display times in UTC for any log" +:+
  "messages. To resolve this set up /etc/timezone with correct time zone name.".

Section Scheduler.

(** apscheduler's part of [add_job]: building the trigger from its name
    and keyword arguments, which can raise, and the first run time it
    gives the job. *)
Variable first_run_time :
  BackgroundScheduler -> string -> gmap string value -> outcome (option Z).

Definition add_job (tasks : list value) (jid name trigger : string)
    (trigger_args : gmap string value) : M unit :=
  record (Add_job tasks jid name trigger trigger_args);;
  s ← get_scheduler;
  match first_run_time s trigger trigger_args with
  | Raise e => raise e
  | Return nrt =>
      if bool_decide (jid ∈ map Job.id (jobs s)) then raise (ConflictingIdError jid)
      else
        set_scheduler
          (set_jobs s (jobs s ++ [Job.mk jid name tasks trigger trigger_args nrt]))
  end.

Definition remove_job (jid : string) : M unit :=
  record (Remove_job jid);;
  s ← get_scheduler;
  if bool_decide (jid ∈ map Job.id (jobs s)) then
    set_scheduler
      (set_jobs s (List.filter (fun j => negb (String.eqb (Job.id j) jid)) (jobs s)))
  else raise (JobLookupError jid).

Definition shutdown : M unit :=
  record Shutdown;;
  s ← get_scheduler;
  set_scheduler (set_running s false).

Definition start : M unit :=
  record Start;;
  s ← get_scheduler;
  set_scheduler (set_running s true).

(** Body of the loop over the configured schedules for a job that is not
    yet in the store. *)
Definition add_configured (job_config : schedule) (jid : string) : M unit :=
  '(trigger, trigger_args) ←
    match fields job_config !! "interval" with
    | Some a => mret ("interval", a)
    | None =>
        match fields job_config !! "schedule" with
        | Some a => mret ("cron", a)
        | None => raise (KeyError "schedule")
        end
    end;
  tasks ←
    match fields job_config !! "tasks" with
    | Some (VList l) => mret l
    | Some t => mret [t]
    | None => raise (KeyError "tasks")
    end;
  name ←
    match join_tasks tasks with
    | Return l => mret (String.concat "," l)
    | Raise e => raise e
    end;
  match trigger_args with
  | VDict kw =>
      if forallb (fun k => negb (bool_decide (k ∈ dom kw)))
           ["func"; "args"; "id"; "name"; "trigger"]
      then add_job tasks jid name trigger kw
      else raise (TypeError "add_job() got multiple values for keyword argument")
  | _ => raise (TypeError "add_job() argument after ** must be a mapping")
  end.

Fixpoint add_missing (existing_job_ids : list string) (config : list schedule)
    (configured_job_ids : list string) : M (list string) :=
  match config with
  | [] => mret configured_job_ids
  | job_config :: rest =>
      let jid := unicode (addr job_config) in
      let configured_job_ids := configured_job_ids ++ [jid] in
      (if bool_decide (jid ∈ existing_job_ids) then mret tt
       else add_configured job_config jid);;
      add_missing existing_job_ids rest configured_job_ids
  end.

(** Remove jobs no longer in config. *)
Fixpoint remove_stale (existing_job_ids configured_job_ids : list string) : M unit :=
  match existing_job_ids with
  | [] => mret tt
  | jid :: rest =>
      (if bool_decide (jid ∈ configured_job_ids) then mret tt else remove_job jid);;
      remove_stale rest configured_job_ids
  end.

(** Set up the jobs for apscheduler to run. *)
Definition setup_jobs : M unit :=
  w ← get_world;
  if negb (is_daemon (manager w)) then mret tt
  else
    (match config_schedules (manager w) with
     | None =>
         log_msg INFO
           "No schedules defined in config. Defaulting to run all tasks on a 1 hour interval."
     | Some _ => mret tt
     end);;
    let config :=
      default (Schedules [default_schedule (alloc w)]) (config_schedules (manager w)) in
    if negb (config_truthy config) then
      s ← get_scheduler;
      if running s then log_msg INFO "Shutting down scheduler";; shutdown
      else mret tt
    else
      s ← get_scheduler;
      let existing_job_ids := map Job.id (jobs s) in
      configured_job_ids ← add_missing existing_job_ids (items config) [];
      remove_stale existing_job_ids configured_job_ids;;
      s ← get_scheduler;
      if negb (running s) then log_msg INFO "Starting scheduler";; start
      else mret tt.

(** The [try] block of [setup_scheduler]; [localzone] is the outcome of
    [tzlocal.get_localzone()]. *)
Definition resolve_timezone (localzone : outcome tzinfo) : M (option tzinfo) :=
  match localzone with
  | Return tz => if String.eqb (zone tz) "local" then mret None else mret (Some tz)
  | Raise UnknownTimeZoneError => mret None
  | Raise (StructError e) =>
      log_msg WARNING ("Hiding exception from tzlocal: " +:+ e);;
      mret None
  | Raise e => raise e
  end.

(** Configure and start apscheduler.  The job store is the table of the
    manager's database, so the new scheduler holds the persisted jobs. *)
Definition setup_scheduler (localzone : outcome tzinfo) : M unit :=
  timezone ← resolve_timezone localzone;
  timezone ←
    match timezone with
    | Some tz => mret tz
    | None =>
        log_msg INFO timezone_note;;
        mret utc
    end;
  w ← get_world;
  set_scheduler
    {| timezone := timezone; coalesce := true; misfire_grace_time := 60 * 60 * 24;
       jobs := engine (manager w); running := false |};;
  setup_jobs.

End Scheduler.



(** ** The schedule API *)

Inductive http_method := GET | POST | PATCH | DELETE.

(** A request: its method and the [schedule] member of its JSON body, a
    dict object freshly allocated at [addr]; [None] when the body has no
    such member. *)
Record Request := {
  method : http_method;
  json_schedule : option schedule
}.

Record Response := {
  body : gmap string value;
  status : Z
}.

Definition jsonify (key : string) (v : value) : Response :=
  {| body := {[ key := v ]}; status := 200 |}.

Definition with_status (r : Response) (code : Z) : Response :=
  {| body := body r; status := code |}.

(** [schedule = schedule.copy(); schedule['id'] = schedule_id] *)
Definition copy_with_id (s : schedule) (schedule_id : Z) : gmap string value :=
  <["id" := VInt schedule_id]> (fields s).

Definition truthy_opt (o : option (gmap string value)) : bool :=
  match o with
  | Some d => truthy (VDict d)
  | None => false
  end.

Definition datetime_value (t : option Z) : value :=
  match t with
  | Some t => VDatetime t
  | None => VNone
  end.

(** [data['schedule']] *)
Definition data_schedule (request : Request) : M schedule :=
  match json_schedule request with
  | Some s => mret s
  | None => raise (KeyError "schedule")
  end.

(** Modelled from the spec: [manager.save_config] of [flexget.manager] is
    the collaborator [persistConfig()]; it writes the configuration to
    durable storage, and a failed write is an error. *)
Definition save_config : M unit :=
  w ← get_world;
  let m := manager w in
  if config_file_writable m then
    set_manager
      {| is_daemon := is_daemon m; config_schedules := config_schedules m;
         engine := engine m; config_file := config_schedules m;
         config_file_writable := config_file_writable m |}
  else raise (IOError "save_config").

Definition _schedule_by_id (schedule_id : Z) : M (option (gmap string value)) :=
  w ← get_world;
  match config_schedules (manager w) with
  | None => mret None
  | Some Disabled => raise (TypeError "'bool' object is not iterable")
  | Some (Schedules l) =>
      mret ((fun s => copy_with_id s schedule_id)
              <$> List.find (fun s => addr s =? schedule_id) l)
  end.

(** [manager.config.get('schedules', [])] under [len]. *)
Definition schedules_for_len : M (list schedule) :=
  w ← get_world;
  match config_schedules (manager w) with
  | None => mret []
  | Some Disabled => raise (TypeError "object of type 'bool' has no len()")
  | Some (Schedules l) => mret l
  end.

Definition set_schedules (l : list schedule) : M unit :=
  w ← get_world;
  set_manager (set_config (manager w) (Some (Schedules l))).

Section API.

Variable first_run_time :
  BackgroundScheduler -> string -> gmap string value -> outcome (option Z).

(** Modelled from the spec: [manager.config_changed] of [flexget.manager]
    is the collaborator [notifyConfigChanged()]; it signals the
    config-updated event, on which [setup_jobs] is registered. *)
Definition config_changed : M unit := setup_jobs first_run_time.

Definition schedules (request : Request) : M Response :=
  match method request with
  | GET =>
      w ← get_world;
      match config_schedules (manager w) with
      | Some c =>
          if config_truthy c then
            mret (jsonify "schedules"
                    (VList (map (fun s => VDict (copy_with_id s (addr s))) (items c))))
          else mret (jsonify "schedules" (VList []))
      | None => mret (jsonify "schedules" (VList []))
      end
  | POST =>
      w ← get_world;
      (match config_schedules (manager w) with
       | Some c => if config_truthy c then mret tt else set_schedules []
       | None => set_schedules []
       end);;
      l ← schedules_for_len;
      schedule ← data_schedule request;
      set_schedules (l ++ [schedule]);;
      new_schedule ← _schedule_by_id (addr schedule);
      if negb (truthy_opt new_schedule) then
        mret (with_status (jsonify "error" (VStr "schedule went missing after add")) 500)
      else
        save_config;;
        config_changed;;
        mret (jsonify "schedule" (VDict (default ∅ new_schedule)))
  | _ => raise (ValueError "View function did not return a response")
  end.

Definition get_schedule (schedule_id : Z) : M Response :=
  schedule ← _schedule_by_id schedule_id;
  if negb (truthy_opt schedule) then
    mret (with_status (jsonify "error" (VStr "invalid schedule id")) 400)
  else
    s ← get_scheduler;
    let d := default ∅ schedule in
    mret (jsonify "schedule"
            (VDict match get_job s (unicode schedule_id) with
                   | Some job => <["next_run_time" := datetime_value (Job.next_run_time job)]> d
                   | None => d
                   end)).

Definition update_schedule (request : Request) (schedule_id : Z) : M Response :=
  l ← schedules_for_len;
  match list_find (fun s => addr s = schedule_id) l with
  | Some (i, target) =>
      new_schedule ← data_schedule request;
      let new_fields := delete "id" (fields new_schedule) in
      let kept :=
        match method request with
        | POST => ∅
        | _ => fields target
        end in
      set_schedules (<[i := {| addr := addr target; fields := new_fields ∪ kept |}]> l);;
      new_schedule ← _schedule_by_id schedule_id;
      if negb (truthy_opt new_schedule) then
        mret (with_status (jsonify "error" (VStr "schedule went missing after update")) 500)
      else
        save_config;;
        config_changed;;
        mret (jsonify "schedule" (VDict (default ∅ new_schedule)))
  | None => mret (with_status (jsonify "error" (VStr "Invalid id")) 400)
  end.

Definition delete_schedule (schedule_id : Z) : M Response :=
  l ← schedules_for_len;
  match list_find (fun s => addr s = schedule_id) l with
  | Some (i, _) =>
      set_schedules (delete i l);;
      save_config;;
      config_changed;;
      mret (with_status (jsonify "detail" (VStr "deleted schedule")) 400)
  | None => mret (with_status (jsonify "error" (VStr "invalid schedule id")) 400)
  end.

End API.

(** ** Vocabulary of the statements *)

(** ['k' in d] *)
Definition has_key (k : string) (d : gmap string value) : bool :=
  bool_decide (k ∈ dom d).

(** Ids of the jobs registered, and deregistered, by a trace of calls. *)
Definition added_ids (cs : list call) : list string :=
  flat_map (fun c => match c with Add_job _ jid _ _ _ => [jid] | _ => [] end) cs.

Definition removed_ids (cs : list call) : list string :=
  flat_map (fun c => match c with Remove_job jid => [jid] | _ => [] end) cs.

(** The calls made between two states of the process. *)
Definition new_calls (w w' : World) : list call :=
  drop (length (calls w)) (calls w').

(** The identities the reconciler derives from the configuration. *)
Definition desired (w : World) : schedules_config :=
  default (Schedules [default_schedule (alloc w)]) (config_schedules (manager w)).

Definition desired_ids (w : World) : list string :=
  map (fun s => unicode (addr s)) (items (desired w)).

(** The ids of the jobs observed in the job store. *)
Definition observed_ids (w : World) : list string :=
  match scheduler w with
  | Some s => map Job.id (jobs s)
  | None => []
  end.

(** An apscheduler that builds every trigger and gives a job no run time
    before the scheduler runs, and a [CronTrigger] that accepts every
    field; used to evaluate the handlers on concrete states. *)
Definition pending_first_run :
  BackgroundScheduler -> string -> gmap string value -> outcome (option Z) :=
  fun _ _ _ => Return None.

Definition lenient_cron : gmap string value -> option exn := fun _ => None.

Definition stopped_world (m : Manager) : World :=
  {| manager := m; scheduler := None; log := []; calls := []; alloc := 0 |}.

Definition running_world (m : Manager) (js : list Job.t) : World :=
  {| manager := m;
     scheduler := Some {| timezone := utc; coalesce := true;
                          misfire_grace_time := 86400; jobs := js; running := true |};
     log := []; calls := []; alloc := 0 |}.

Definition daemon (c : option schedules_config) (writable : bool) : Manager :=
  {| is_daemon := true; config_schedules := c; engine := [];
     config_file := c; config_file_writable := writable |}.

Definition hourly (tasks : string) : gmap string value :=
  {[ "tasks" := VStr tasks; "interval" := VDict {[ "hours" := VInt 1 ]} ]}.

Definition hourly_job (jid tasks : string) (t : option Z) : Job.t :=
  Job.mk jid tasks [VStr tasks] "interval" {[ "hours" := VInt 1 ]} t.

(** The schedule [{tasks: tv, interval: {hours: 1}}] as an object at [a]. *)
Definition tv_at (a : Z) : schedule := {| addr := a; fields := hourly "tv" |}.

Definition daemon_with_store (c : option schedules_config) (store : list Job.t) : Manager :=
  {| is_daemon := true; config_schedules := c; engine := store;
     config_file := c; config_file_writable := true |}.

(** The outcomes of [tzlocal.get_localzone()] that name no zone: the
    [local] placeholder, an unknown-timezone error, a struct error. *)
Definition timezone_undetermined (localzone : outcome tzinfo) : Prop :=
  (exists tz, localzone = Return tz /\ zone tz = "local")
  \/ localzone = Raise UnknownTimeZoneError
  \/ exists e, localzone = Raise (StructError e).

(** The scheduler that [setup_scheduler] constructs over the manager's
    database, in the process state it is installed in. *)
Definition constructed (w : World) (tz : tzinfo) (notes : list (level * string)) : World :=
  {| manager := manager w;
     scheduler := Some {| timezone := tz; coalesce := true; misfire_grace_time := 86400;
                          jobs := engine (manager w); running := false |};
     log := log w ++ notes; calls := calls w; alloc := alloc w |}.

Definition scheduler_timezone (w : World) : option tzinfo :=
  timezone <$> scheduler w.

(** A computation that keeps the timezone of the scheduler handle. *)
Definition keeps_timezone {A} (m : M A) : Prop :=
  forall w, scheduler_timezone (m w).2 = scheduler_timezone w.

(** The list the API handlers iterate over: empty when the key is absent,
    none when scheduling is disabled. *)
Definition schedule_list (w : World) : option (list schedule) :=
  match config_schedules (manager w) with
  | None => Some []
  | Some Disabled => None
  | Some (Schedules l) => Some l
  end.

(** The process state with the in-memory schedule list replaced, and with
    the configuration written to its file. *)
Definition with_schedules (w : World) (l : list schedule) : World :=
  {| manager := set_config (manager w) (Some (Schedules l)); scheduler := scheduler w;
     log := log w; calls := calls w; alloc := alloc w |}.

Definition saved (w : World) : World :=
  {| manager := {| is_daemon := is_daemon (manager w);
                   config_schedules := config_schedules (manager w);
                   engine := engine (manager w);
                   config_file := config_schedules (manager w);
                   config_file_writable := config_file_writable (manager w) |};
     scheduler := scheduler w; log := log w; calls := calls w; alloc := alloc w |}.

(** The list [Create] appends to: the configured one, or a new empty list
    when the key is absent or its value is false. *)
Definition enabled_list (w : World) : list schedule :=
  match config_schedules (manager w) with
  | Some c => if config_truthy c then items c else []
  | None => []
  end.

(** What [Replace] and [Update] leave at the position of [target]. *)
Definition updated (m : http_method) (target new_schedule : schedule) : schedule :=
  {| addr := addr target;
     fields := delete "id" (fields new_schedule)
               ∪ match m with POST => ∅ | _ => fields target end |}.

Definition error_response (msg : string) (code : Z) : Response :=
  with_status (jsonify "error" (VStr msg)) code.

(** The first step of Create: a missing or false [schedules] value is
    replaced by an empty list. *)
Definition enabled (w : World) : World :=
  match config_schedules (manager w) with
  | Some c => if config_truthy c then w else with_schedules w []
  | None => with_schedules w []
  end.

(** The same process state with another scheduler handle. *)
Definition with_scheduler (w : World) (sch : option BackgroundScheduler) : World :=
  {| manager := manager w; scheduler := sch; log := log w; calls := calls w;
     alloc := alloc w |}.

Definition idle_world (m : Manager) (js : list Job.t) : World :=
  {| manager := m;
     scheduler := Some {| timezone := utc; coalesce := true;
                          misfire_grace_time := 86400; jobs := js; running := false |};
     log := []; calls := []; alloc := 0 |}.

(** A schedule with both trigger kinds, which the schema rejects. *)
Definition both_triggers (a : Z) : schedule :=
  {| addr := a; fields := <["schedule" := VDict {[ "hour" := VInt 3 ]}]> (hourly "tv") |}.

(** Process states and requests the properties are evaluated on. *)

(** The daemon runs the configured [tv] schedule as job [100]. *)
Definition synced_world : World :=
  running_world (daemon (Some (Schedules [tv_at 100])) true)
    [hourly_job "100" "tv" (Some 1700000000)].

(** The configuration says [schedules: no] while job [100] is in the store
    and the scheduler runs. *)
Definition disabled_world : World :=
  running_world (daemon (Some Disabled) true)
    [hourly_job "100" "tv" (Some 1700000000)].

(** As [synced_world], with a configuration file that cannot be written. *)
Definition unwritable_world : World :=
  running_world (daemon (Some (Schedules [tv_at 100])) false)
    [hourly_job "100" "tv" (Some 1700000000)].

(** Scheduling is disabled and the scheduler is stopped. *)
Definition disabled_idle_world : World :=
  idle_world (daemon (Some Disabled) true) [].

(** The daemon before its scheduler is set up: first with an empty job
    store, then restarted with the job of the previous process in it. *)
Definition first_start : World :=
  stopped_world (daemon_with_store (Some (Schedules [tv_at 100])) []).

Definition restarted : World :=
  stopped_world (daemon_with_store (Some (Schedules [tv_at 200]))
                   [hourly_job "100" "tv" (Some 1700000000)]).

Definition empty_world : World :=
  running_world (daemon (Some (Schedules [])) true) [].

Definition create_request (s : schedule) : Request :=
  {| method := POST; json_schedule := Some s |}.

Definition list_request : Request :=
  {| method := GET; json_schedule := None |}.

Definition movies_patch : schedule :=
  {| addr := 300; fields := {[ "tasks" := VStr "movies" ]} |}.

Definition patch_request : Request :=
  {| method := PATCH; json_schedule := Some movies_patch |}.

(** Vocabulary of the further properties. *)

(** The sub-schema of [tasks] in the item schema. *)
Definition tasks_schema : schema := [Ktype [TArray; TString]; Kitems [Ktype [TString]]].

(** The trigger kind and arguments the loop of [setup_jobs] selects:
    [interval] when present, else [schedule]. *)
Definition trigger_of (job_config : schedule) : option (string * value) :=
  match fields job_config !! "interval" with
  | Some a => Some ("interval", a)
  | None =>
      match fields job_config !! "schedule" with
      | Some a => Some ("cron", a)
      | None => None
      end
  end.

Definition observed_jobs (w : World) : list Job.t :=
  match scheduler w with
  | Some s => jobs s
  | None => []
  end.

Definition scheduler_running (w : World) : option bool := running <$> scheduler w.

Definition job_ids (config : list schedule) : list string :=
  map (fun s => unicode (addr s)) config.

(** The effect of the steps of the first loop: jobs are only appended,
    only calls are [add_job] calls. *)
Definition appended (ok : string -> Prop) (w w' : World) (extra : list Job.t) : Prop :=
  manager w' = manager w /\ alloc w' = alloc w
  /\ scheduler_running w' = scheduler_running w
  /\ observed_jobs w' = observed_jobs w ++ extra
  /\ (forall j, j ∈ extra -> ok (Job.id j))
  /\ exists cs,
       calls w' = calls w ++ cs /\ removed_ids cs = []
       /\ forall jid, jid ∈ added_ids cs -> ok jid.

(** The effect of the steps of the second loop: jobs are only removed,
    the only calls are [remove_job] calls. *)
Definition pruned (ok : string -> Prop) (w w' : World) (gone : list string) : Prop :=
  manager w' = manager w /\ alloc w' = alloc w
  /\ scheduler_running w' = scheduler_running w
  /\ (forall j, j ∈ observed_jobs w' <-> j ∈ observed_jobs w /\ Job.id j ∉ gone)
  /\ (forall i, i ∈ gone -> ok i)
  /\ exists cs, calls w' = calls w ++ cs /\ added_ids cs = [] /\ removed_ids cs = gone.

(** A step that touches neither the job store nor the configuration and
    makes no [add_job] or [remove_job] call. *)
Definition quiet (w w' : World) : Prop :=
  manager w' = manager w /\ alloc w' = alloc w
  /\ observed_jobs w' = observed_jobs w
  /\ exists cs, calls w' = calls w ++ cs /\ added_ids cs = [] /\ removed_ids cs = [].

(** What a run of the reconciler does to the job store and which calls it
    makes, whatever its outcome. *)
Definition reconciled (w w' : World) : Prop :=
  manager w' = manager w /\ alloc w' = alloc w
  /\ (forall j, j ∈ observed_jobs w' ->
        j ∈ observed_jobs w \/ (Job.id j ∈ desired_ids w /\ Job.id j ∉ observed_ids w))
  /\ (forall j, j ∈ observed_jobs w -> Job.id j ∈ desired_ids w -> j ∈ observed_jobs w')
  /\ (forall i, i ∈ added_ids (new_calls w w') -> i ∈ desired_ids w /\ i ∉ observed_ids w)
  /\ (forall i, i ∈ removed_ids (new_calls w w') -> i ∈ observed_ids w /\ i ∉ desired_ids w).

(** The entry of a schedule in the responses: its fields and its id. *)
Definition entry (s : schedule) : value := VDict (copy_with_id s (addr s)).

(** The job store holds job [100] of an earlier configuration, the
    configuration lists the schedule at [200], the scheduler is stopped. *)
Definition stale_world : World :=
  idle_world (daemon (Some (Schedules [tv_at 200])) true)
    [hourly_job "100" "tv" (Some 1700000000)].

(** A manager that is not a daemon, before any scheduler exists. *)
Definition cli_world : World :=
  stopped_world
    {| is_daemon := false; config_schedules := Some (Schedules [tv_at 100]);
       engine := []; config_file := Some (Schedules [tv_at 100]);
       config_file_writable := true |}.

Definition helsinki : tzinfo := {| zone := "Europe/Helsinki" |}.

(** A schedule with a trigger and no [tasks]. *)
Definition no_tasks (a : Z) : schedule :=
  {| addr := a; fields := {[ "interval" := VDict {[ "hours" := VInt 1 ]} ]} |}.

(** The configuration lists, after the schedule of job [100], a schedule
    the reconciler cannot register. *)
Definition missing_trigger_world : World :=
  running_world (daemon (Some (Schedules [tv_at 100; movies_patch])) true)
    [hourly_job "100" "tv" (Some 1700000000)].

Definition missing_tasks_world : World :=
  running_world (daemon (Some (Schedules [tv_at 100; no_tasks 400])) true)
    [hourly_job "100" "tv" (Some 1700000000)].

Definition empty_post : Request := {| method := POST; json_schedule := None |}.

Definition live_scheduler : BackgroundScheduler :=
  {| timezone := utc; coalesce := true; misfire_grace_time := 86400;
     jobs := [hourly_job "100" "tv" (Some 1700000000)]; running := true |}.

(** Scheduling is disabled and the scheduler stopped, with job [100] of the
    earlier configuration still in the store. *)
Definition disabled_stale_world : World :=
  idle_world (daemon (Some Disabled) true) [hourly_job "100" "tv" (Some 1700000000)].

(** * Properties *)

(** ** Schema validation *)

Section ValidationFacts.

Variable CronTrigger : gmap string value -> option exn.

Lemma trigger_oneOf_check names d :
  check CronTrigger names (KoneOf trigger_oneOf) (VDict d)
  = xorb (has_key "interval" d) (has_key "schedule" d).
Proof.
  unfold has_key. cbn.
  destruct (bool_decide ("schedule" ∈ dom d)), (bool_decide ("interval" ∈ dom d));
    reflexivity.
Qed.

Lemma validate_item_oneOf v :
  validate CronTrigger item_schema v = true ->
  check CronTrigger (property_names item_schema) (KoneOf trigger_oneOf) v = true.
Proof.
  unfold validate. intros H.
  rewrite forallb_forall in H. apply H. unfold item_schema.
  right. right. left. reflexivity.
Qed.

Lemma validate_item_xor d :
  xorb (has_key "interval" d) (has_key "schedule" d) = false ->
  validate CronTrigger item_schema (VDict d) = false.
Proof.
  intros Hx. destruct (validate CronTrigger item_schema (VDict d)) eqn:Hv; [|done].
  apply validate_item_oneOf in Hv. rewrite trigger_oneOf_check in Hv. congruence.
Qed.

(** A list is valid exactly when each of its items is. *)
Lemma validate_main_list l :
  validate CronTrigger main_schema (VList l)
  = forallb (validate CronTrigger item_schema) l.
Proof.
  unfold validate at 1. cbn -[item_schema].
  fold (validate CronTrigger item_schema).
  destruct (forallb _ l); reflexivity.
Qed.

Lemma validate_main_rejects_item l v :
  v ∈ l ->
  validate CronTrigger item_schema v = false ->
  validate CronTrigger main_schema (VList l) = false.
Proof.
  intros Hin Hv. rewrite validate_main_list.
  destruct (forallb _ l) eqn:Hall; [|done].
  rewrite forallb_forall in Hall.
  apply list_elem_of_In, Hall in Hin. congruence.
Qed.

(** C7: a schedule config with both [interval] and [schedule], or with
    neither, is rejected by the item schema and makes every schedule list
    that contains it invalid; a config with exactly one of the two passes
    the exactly-one check of the schema. *)
Theorem exactly_one_trigger (d : gmap string value) :
  (has_key "interval" d = has_key "schedule" d ->
   validate CronTrigger item_schema (VDict d) = false
   /\ forall l, VDict d ∈ l -> validate CronTrigger main_schema (VList l) = false)
  /\ (has_key "interval" d ≠ has_key "schedule" d ->
      check CronTrigger (property_names item_schema) (KoneOf trigger_oneOf) (VDict d)
      = true).
Proof.
  split; intros H.
  - assert (Hx : xorb (has_key "interval" d) (has_key "schedule" d) = false)
      by (rewrite H; apply xorb_nilpotent).
    split; [by apply validate_item_xor|].
    intros l Hin. eapply validate_main_rejects_item; [done|by apply validate_item_xor].
  - rewrite trigger_oneOf_check.
    destruct (has_key "interval" d), (has_key "schedule" d); done.
Qed.

End ValidationFacts.

Lemma exactly_one_trigger_witness :
  (validate lenient_cron item_schema
     (VDict (<["schedule" := VDict {[ "hour" := VInt 3 ]}]> (hourly "tv"))) = false
   /\ validate lenient_cron item_schema (VDict {[ "tasks" := VStr "tv" ]}) = false)
  /\ check lenient_cron (property_names item_schema) (KoneOf trigger_oneOf)
       (VDict (hourly "tv")) = true.
Proof.
  split; [split|].
  - apply (exactly_one_trigger lenient_cron
             (<["schedule" := VDict {[ "hour" := VInt 3 ]}]> (hourly "tv"))).
    vm_compute. reflexivity.
  - apply (exactly_one_trigger lenient_cron {[ "tasks" := VStr "tv" ]}).
    vm_compute. reflexivity.
  - apply (exactly_one_trigger lenient_cron (hourly "tv")).
    vm_compute. discriminate.
Defined.

(** ** Reconciliation *)

Lemma elem_of_map {A B} (f : A -> B) (l : list A) (y : B) :
  y ∈ map f l <-> exists x, y = f x /\ x ∈ l.
Proof.
  rewrite list_elem_of_In, in_map_iff.
  split; intros (x & H1 & H2); exists x; split; try done; by apply list_elem_of_In.
Qed.

Section ReconcileFacts.

Variable first_run_time :
  BackgroundScheduler -> string -> gmap string value -> outcome (option Z).

(** The loop over the configuration does nothing for schedules whose id
    is in the store. *)
Lemma add_missing_existing existing config acc w :
  (forall s, s ∈ config -> unicode (addr s) ∈ existing) ->
  add_missing first_run_time existing config acc w
  = (Return (acc ++ map (fun s => unicode (addr s)) config), w).
Proof.
  revert acc. induction config as [|c config IH]; intros acc Hin; cbn.
  - by rewrite app_nil_r.
  - unfold mbind, M_bind.
    rewrite bool_decide_eq_true_2 by (apply Hin; left).
    cbn. rewrite IH by (intros s Hs; apply Hin; by right).
    by rewrite <- app_assoc.
Qed.

Lemma remove_stale_configured existing configured w :
  (forall jid, jid ∈ existing -> jid ∈ configured) ->
  remove_stale existing configured w = (Return tt, w).
Proof.
  induction existing as [|jid existing IH]; intros Hin; cbn; [done|].
  unfold mbind, M_bind.
  rewrite bool_decide_eq_true_2 by (apply Hin; left).
  cbn. apply IH. intros j Hj. apply Hin. by right.
Qed.

(** C3: when the ids of the jobs in the store are exactly the ids derived
    from the desired schedules, [setup_jobs] returns, registers no job,
    deregisters no job and leaves every job of the store, with its next
    run time, as it was. *)
Theorem reconcile_idempotent (w : World) (s : BackgroundScheduler) :
  scheduler w = Some s ->
  (forall jid, jid ∈ observed_ids w <-> jid ∈ desired_ids w) ->
  exists w',
    setup_jobs first_run_time w = (Return tt, w')
    /\ added_ids (new_calls w w') = []
    /\ removed_ids (new_calls w w') = []
    /\ (jobs <$> scheduler w') = Some (jobs s)
    /\ manager w' = manager w.
Proof.
  intros Hs Hmatch.
  destruct w as [m sch lg cs al]. cbn in Hs. subst sch.
  unfold observed_ids, desired_ids, desired in Hmatch. cbn in Hmatch.
  unfold setup_jobs, mbind, M_bind, get_world. cbn.
  destruct (is_daemon m); cbn;
    [|eexists; split; [reflexivity|]; unfold new_calls; cbn; by rewrite drop_all].
  assert (Hlog : exists lg',
    (match config_schedules m with
     | Some _ => mret ()
     | None => log_msg INFO
        "No schedules defined in config. Defaulting to run all tasks on a 1 hour interval."
     end) {| manager := m; scheduler := Some s; log := lg; calls := cs; alloc := al |}
    = (Return tt,
       {| manager := m; scheduler := Some s; log := lg'; calls := cs; alloc := al |})).
  { destruct (config_schedules m); eexists; reflexivity. }
  destruct Hlog as [lg' ->].
  set (config := default _ (config_schedules m)) in *.
  destruct (config_truthy config) eqn:Htruthy; cbn.
  - rewrite add_missing_existing
      by (intros c Hc; apply Hmatch, elem_of_map; eauto).
    cbn. rewrite remove_stale_configured by (intros jid Hj; by apply Hmatch).
    cbn. destruct (running s); cbn.
    + eexists. split; [reflexivity|]. unfold new_calls. cbn. by rewrite drop_all.
    + eexists. split; [reflexivity|]. unfold new_calls. cbn. by rewrite drop_app_length.
  - destruct (running s); cbn.
    + eexists. split; [reflexivity|]. unfold new_calls. cbn. by rewrite drop_app_length.
    + eexists. split; [reflexivity|]. unfold new_calls. cbn. by rewrite drop_all.
Qed.

(** C2, as the code has it: with [schedules: no] the reconciler makes
    no call that registers or deregisters a job, so the jobs stay in the
    store; a running scheduler is shut down and ends up stopped. *)
Theorem disabled_stops_and_keeps_jobs (w : World) (s : BackgroundScheduler) :
  is_daemon (manager w) = true ->
  config_schedules (manager w) = Some Disabled ->
  scheduler w = Some s ->
  exists w',
    setup_jobs first_run_time w = (Return tt, w')
    /\ added_ids (new_calls w w') = []
    /\ removed_ids (new_calls w w') = []
    /\ observed_ids w' = observed_ids w
    /\ (running <$> scheduler w') = Some false
    /\ new_calls w w' = (if running s then [Shutdown] else []).
Proof.
  intros Hd Hc Hs.
  destruct w as [m sch lg cs al]. cbn in *. subst sch.
  unfold setup_jobs, mbind, M_bind, get_world. cbn.
  rewrite Hd, Hc. cbn.
  destruct (running s) eqn:Hr; cbn.
  - eexists. split; [reflexivity|]. unfold new_calls, observed_ids. cbn.
    by rewrite drop_app_length.
  - eexists. split; [reflexivity|]. unfold new_calls, observed_ids. cbn.
    rewrite drop_all, Hr. done.
Qed.

End ReconcileFacts.

Lemma reconcile_idempotent_witness :
  exists w',
    setup_jobs pending_first_run synced_world = (Return tt, w')
    /\ added_ids (new_calls synced_world w') = []
    /\ removed_ids (new_calls synced_world w') = []
    /\ (jobs <$> scheduler w') = Some [hourly_job "100" "tv" (Some 1700000000)]
    /\ manager w' = manager synced_world.
Proof.
  apply (reconcile_idempotent pending_first_run synced_world
           {| timezone := utc; coalesce := true; misfire_grace_time := 86400;
              jobs := [hourly_job "100" "tv" (Some 1700000000)]; running := true |}).
  - reflexivity.
  - intros jid. vm_compute. tauto.
Defined.

Lemma disabled_stops_and_keeps_jobs_witness :
  exists w',
    setup_jobs pending_first_run disabled_world = (Return tt, w')
    /\ added_ids (new_calls disabled_world w') = []
    /\ removed_ids (new_calls disabled_world w') = []
    /\ observed_ids w' = observed_ids disabled_world
    /\ (running <$> scheduler w') = Some false
    /\ new_calls disabled_world w' = [Shutdown].
Proof.
  apply (disabled_stops_and_keeps_jobs pending_first_run disabled_world
           {| timezone := utc; coalesce := true; misfire_grace_time := 86400;
              jobs := [hourly_job "100" "tv" (Some 1700000000)]; running := true |});
    reflexivity.
Defined.

(** C2, as stated, fails: one job is observed, scheduling is disabled, and
    the reconciler removes no id, so the removed ids are not the observed
    ids; the job is still in the store afterwards. *)
Lemma disabled_removes_all_counterexample :
  config_schedules (manager disabled_world) = Some Disabled
  /\ observed_ids disabled_world = ["100"]
  /\ removed_ids (new_calls disabled_world
                    (setup_jobs pending_first_run disabled_world).2) = []
  /\ observed_ids (setup_jobs pending_first_run disabled_world).2 = ["100"]
  /\ ~ (forall jid,
          jid ∈ observed_ids disabled_world ->
          jid ∈ removed_ids (new_calls disabled_world
                               (setup_jobs pending_first_run disabled_world).2)).
Proof.
  split; [reflexivity|]. split; [reflexivity|]. split; [reflexivity|].
  split; [reflexivity|].
  intros H. specialize (H "100").
  change (removed_ids _) with (@nil string) in H.
  change (observed_ids _) with ["100"] in H.
  apply elem_of_nil in H; [done|]. apply list_elem_of_here.
Qed.

(** ** Timezone fallback *)

Create HintDb tz.

Lemma keeps_ret {A} (a : A) : keeps_timezone (mret a).
Proof. by intros w. Qed.

Lemma keeps_raise {A} e : keeps_timezone (@raise A e).
Proof. by intros w. Qed.

Lemma keeps_bind {A B} (m : M A) (f : A -> M B) :
  keeps_timezone m -> (forall a, keeps_timezone (f a)) -> keeps_timezone (m ≫= f).
Proof.
  intros Hm Hf w. unfold mbind, M_bind. specialize (Hm w).
  destruct (m w) as [[a|e] w1]; cbn in *; [|done].
  by rewrite Hf.
Qed.

Lemma keeps_log lvl msg : keeps_timezone (log_msg lvl msg).
Proof. by intros w. Qed.

Lemma keeps_record c : keeps_timezone (record c).
Proof. by intros w. Qed.

Lemma keeps_get_world : keeps_timezone get_world.
Proof. by intros w. Qed.

Lemma keeps_get_scheduler : keeps_timezone get_scheduler.
Proof. intros w. unfold get_scheduler. by destruct (scheduler w). Qed.

#[local] Hint Resolve keeps_ret keeps_raise keeps_log keeps_record keeps_get_world
  keeps_get_scheduler : tz.

(** Updating the handle read from the state with one of the same timezone. *)
Lemma keeps_update (f : BackgroundScheduler -> M unit) :
  (forall s w, scheduler w = Some s -> scheduler_timezone (f s w).2 = Some (timezone s)) ->
  keeps_timezone (get_scheduler ≫= f).
Proof.
  intros Hf w. unfold mbind, M_bind, get_scheduler.
  destruct (scheduler w) as [s|] eqn:Hs; cbn; [|done].
  rewrite (Hf s w Hs). unfold scheduler_timezone. by rewrite Hs.
Qed.

Section TimezoneFacts.
Variable first_run_time :
  BackgroundScheduler -> string -> gmap string value -> outcome (option Z).

Lemma keeps_add_job tasks jid name trigger kw :
  keeps_timezone (add_job first_run_time tasks jid name trigger kw).
Proof.
  unfold add_job. apply keeps_bind; [auto with tz|]. intros _.
  apply keeps_update. intros s w Hs.
  destruct (first_run_time s trigger kw); cbn; [|unfold scheduler_timezone; by rewrite Hs].
  case_bool_decide; cbn; [unfold scheduler_timezone; by rewrite Hs|done].
Qed.

Lemma keeps_remove_job jid : keeps_timezone (remove_job jid).
Proof.
  unfold remove_job. apply keeps_bind; [auto with tz|]. intros _.
  apply keeps_update. intros s w Hs.
  case_bool_decide; cbn; [done|unfold scheduler_timezone; by rewrite Hs].
Qed.

Lemma keeps_shutdown : keeps_timezone shutdown.
Proof.
  unfold shutdown. apply keeps_bind; [auto with tz|]. intros _.
  by apply keeps_update.
Qed.

Lemma keeps_start : keeps_timezone start.
Proof.
  unfold start. apply keeps_bind; [auto with tz|]. intros _.
  by apply keeps_update.
Qed.

#[local] Hint Resolve keeps_add_job keeps_remove_job keeps_shutdown keeps_start : tz.

Ltac keeps :=
  repeat first
    [ solve [auto with tz]
    | apply keeps_bind; [|intros ?]
    | match goal with
      | |- keeps_timezone (match ?x with _ => _ end) => destruct x
      | |- keeps_timezone (if ?x then _ else _) => destruct x
      | |- keeps_timezone (let '(_, _) := ?x in _) => destruct x
      end ].

Lemma keeps_add_configured job_config jid :
  keeps_timezone (add_configured first_run_time job_config jid).
Proof. unfold add_configured. keeps. Qed.

#[local] Hint Resolve keeps_add_configured : tz.

Lemma keeps_add_missing existing config acc :
  keeps_timezone (add_missing first_run_time existing config acc).
Proof.
  revert acc. induction config as [|c config IH]; intros acc; cbn; keeps.
Qed.

Lemma keeps_remove_stale existing configured :
  keeps_timezone (remove_stale existing configured).
Proof. induction existing as [|j existing IH]; cbn; keeps. Qed.

#[local] Hint Resolve keeps_add_missing keeps_remove_stale : tz.

Lemma keeps_setup_jobs : keeps_timezone (setup_jobs first_run_time).
Proof. unfold setup_jobs. keeps. Qed.

(** C8: when the local timezone cannot be determined (the [local]
    placeholder, an unknown-timezone error or a struct error), setup
    raises nothing for it: it logs its note, constructs the scheduler
    with the UTC timezone and goes on to set up the jobs; the scheduler
    handle has the UTC timezone afterwards. *)
Theorem timezone_fallback (localzone : outcome tzinfo) (w : World) :
  timezone_undetermined localzone ->
  exists notes,
    setup_scheduler first_run_time localzone w
    = setup_jobs first_run_time (constructed w utc notes)
    /\ last notes = Some (INFO, timezone_note)
    /\ scheduler_timezone (setup_scheduler first_run_time localzone w).2 = Some utc.
Proof.
  intros Hz.
  assert (H : exists notes,
    setup_scheduler first_run_time localzone w
    = setup_jobs first_run_time (constructed w utc notes)
    /\ last notes = Some (INFO, timezone_note)).
  { destruct Hz as [(tz & -> & Hlocal)|[->|[e ->]]].
    - exists [(INFO, timezone_note)]. split; [|done].
      unfold setup_scheduler, resolve_timezone. rewrite Hlocal. reflexivity.
    - exists [(INFO, timezone_note)]. split; [|done]. reflexivity.
    - exists [(WARNING, "Hiding exception from tzlocal: " +:+ e); (INFO, timezone_note)].
      split; [|done].
      unfold setup_scheduler, resolve_timezone, constructed, mbind, M_bind. cbn.
      by rewrite <- app_assoc. }
  destruct H as (notes & Heq & Hlast). exists notes. split; [done|]. split; [done|].
  rewrite Heq, keeps_setup_jobs. reflexivity.
Qed.
End TimezoneFacts.

Lemma timezone_fallback_witness :
  exists notes,
    setup_scheduler pending_first_run
      (Raise (StructError "unpack requires a string argument")) first_start
    = setup_jobs pending_first_run (constructed first_start utc notes)
    /\ last notes = Some (INFO, timezone_note)
    /\ scheduler_timezone
         (setup_scheduler pending_first_run
            (Raise (StructError "unpack requires a string argument")) first_start).2
       = Some utc.
Proof.
  apply (timezone_fallback pending_first_run
           (Raise (StructError "unpack requires a string argument")) first_start).
  right. right. eexists. reflexivity.
Defined.

(** ** Identity of a schedule in the job store *)

Section IdentityFacts.

Variable first_run_time :
  BackgroundScheduler -> string -> gmap string value -> outcome (option Z).

(** The ids the reconciler configures are the addresses of the schedule
    objects, whatever their fields. *)
Lemma add_missing_ids existing config acc w ids w' :
  add_missing first_run_time existing config acc w = (Return ids, w') ->
  ids = acc ++ map (fun s => unicode (addr s)) config.
Proof.
  revert acc w. induction config as [|c config IH]; cbn; intros acc w H.
  - inversion H. by rewrite app_nil_r.
  - unfold mbind, M_bind in H.
    destruct ((if bool_decide (unicode (addr c) ∈ existing) then mret ()
               else add_configured first_run_time c (unicode (addr c))) w)
      as [[[]|e] w1]; [|done].
    apply IH in H. by rewrite H, <- app_assoc.
Qed.

End IdentityFacts.

Lemma unicode_inj (a b : Z) : unicode a = unicode b -> a = b.
Proof. unfold unicode. apply (inj pretty). Qed.

(** C1 at its failing input: the daemon registers the schedule
    [{tasks: tv, interval: {hours: 1}}], an object at address 100, as job
    [100]; after a restart the same content is an object at address 200,
    and the reconciler registers it again as job [200] and removes the
    persisted job [100] together with its next run time. *)
Theorem restart_reregisters_unchanged_schedule :
  fields (tv_at 100) = fields (tv_at 200)
  /\ observed_ids
       (setup_scheduler pending_first_run (Return {| zone := "Europe/Paris" |})
          first_start).2 = ["100"]
  /\ new_calls restarted
       (setup_scheduler pending_first_run (Return {| zone := "Europe/Paris" |})
          restarted).2
     = [ Add_job [VStr "tv"] "200" "tv" "interval" {[ "hours" := VInt 1 ]};
         Remove_job "100"; Start ]
  /\ (jobs <$> scheduler
                 (setup_scheduler pending_first_run (Return {| zone := "Europe/Paris" |})
                    restarted).2)
     = Some [hourly_job "200" "tv" None].
Proof. repeat split; vm_compute; reflexivity. Qed.

(** ** The schedule API *)

Lemma truthy_copy_with_id s schedule_id :
  truthy (VDict (copy_with_id s schedule_id)) = true.
Proof.
  unfold truthy, copy_with_id. rewrite dom_insert_L.
  rewrite bool_decide_eq_false_2; [done|]. set_solver.
Qed.

Lemma find_addr_app_last l s :
  exists s', List.find (fun x => addr x =? addr s) (l ++ [s]) = Some s'.
Proof.
  induction l as [|x l IH]; cbn.
  - rewrite Z.eqb_refl. eauto.
  - destruct (addr x =? addr s); eauto.
Qed.

Lemma find_addr_list_find l schedule_id i target :
  list_find (fun s => addr s = schedule_id) l = Some (i, target) ->
  forall x, addr x = schedule_id ->
  List.find (fun s => addr s =? schedule_id) (<[i := x]> l) = Some x.
Proof.
  revert i. induction l as [|y l IH]; intros i H x Hx; [done|].
  cbn in H. case_decide as Hy.
  - inversion H; subst i target. cbn.
    by rewrite (proj2 (Z.eqb_eq (addr x) schedule_id) Hx).
  - destruct (list_find _ l) as [[j t]|] eqn:Hf; [|done].
    cbn in H. inversion H; subst i target. cbn.
    apply Z.eqb_neq in Hy. rewrite Hy. by eapply IH.
Qed.

Lemma list_find_addr l schedule_id i target :
  list_find (fun s => addr s = schedule_id) l = Some (i, target) ->
  addr target = schedule_id.
Proof. intros H. by apply list_find_Some in H as (_ & ? & _). Qed.

Lemma schedules_for_len_list w l :
  schedule_list w = Some l -> schedules_for_len w = (Return l, w).
Proof.
  unfold schedule_list, schedules_for_len, mbind, M_bind, get_world.
  destruct (config_schedules (manager w)) as [[|l']|]; intros H; inversion H; subst; reflexivity.
Qed.

Lemma save_config_fails w :
  config_file_writable (manager w) = false ->
  save_config w = (Raise (IOError "save_config"), w).
Proof. intros H. unfold save_config, mbind, M_bind, get_world. rewrite H. reflexivity. Qed.

Lemma save_config_writes w :
  config_file_writable (manager w) = true ->
  save_config w = (Return tt, saved w).
Proof.
  intros H. unfold save_config, saved, mbind, M_bind, get_world.
  rewrite H. reflexivity.
Qed.

Lemma bind_return {A B} (m : M A) (f : A -> M B) w a w' :
  m w = (Return a, w') -> (m ≫= f) w = f a w'.
Proof. intros H. unfold mbind, M_bind. by rewrite H. Qed.

Lemma bind_raise {A B} (m : M A) (f : A -> M B) w e w' :
  m w = (Raise e, w') -> (m ≫= f) w = (Raise e, w').
Proof. intros H. unfold mbind, M_bind. by rewrite H. Qed.

Lemma schedule_by_id_list schedule_id w l :
  config_schedules (manager w) = Some (Schedules l) ->
  _schedule_by_id schedule_id w
  = (Return ((fun s => copy_with_id s schedule_id)
               <$> List.find (fun s => addr s =? schedule_id) l), w).
Proof.
  intros H. unfold _schedule_by_id, mbind, M_bind, get_world. by rewrite H.
Qed.

Lemma enabled_schedule_list w : schedule_list (enabled w) = Some (enabled_list w).
Proof.
  unfold enabled, enabled_list, schedule_list.
  destruct (config_schedules (manager w)) as [[|[|x l]]|] eqn:H; cbn; try done.
  by rewrite H.
Qed.

Lemma with_schedules_enabled w l : with_schedules (enabled w) l = with_schedules w l.
Proof.
  unfold enabled.
  destruct (config_schedules (manager w)) as [c|]; [destruct (config_truthy c)|]; done.
Qed.

Section APIFacts.
Variable first_run_time :
  BackgroundScheduler -> string -> gmap string value -> outcome (option Z).

(** Create up to the persistence step. *)
Lemma create_steps request schedule w :
  method request = POST ->
  json_schedule request = Some schedule ->
  exists s',
    List.find (fun x => addr x =? addr schedule) (enabled_list w ++ [schedule]) = Some s'
    /\ schedules first_run_time request w
    = (save_config;; config_changed first_run_time;;
       mret (jsonify "schedule" (VDict (copy_with_id s' (addr schedule)))))
        (with_schedules w (enabled_list w ++ [schedule])).
Proof.
  intros Hm Hj.
  destruct (find_addr_app_last (enabled_list w) schedule) as [s' Hfind].
  exists s'. split; [done|].
  unfold schedules, data_schedule. rewrite Hm, Hj.
  erewrite bind_return by reflexivity.
  erewrite (bind_return _ _ w tt (enabled w)); cycle 1.
  { unfold enabled. destruct (config_schedules (manager w)) as [c|];
      [destruct (config_truthy c)|]; reflexivity. }
  erewrite bind_return
    by (apply schedules_for_len_list, enabled_schedule_list).
  erewrite bind_return by reflexivity.
  rewrite (bind_return _ _ (enabled w) tt
             (with_schedules (enabled w) (enabled_list w ++ [schedule])))
    by reflexivity.
  rewrite with_schedules_enabled.
  erewrite bind_return by (by apply schedule_by_id_list).
  rewrite Hfind. cbn [fmap option_fmap option_map truthy_opt].
  rewrite truthy_copy_with_id. reflexivity.
Qed.

Lemma update_steps request schedule_id w l i target new_schedule :
  schedule_list w = Some l ->
  list_find (fun s => addr s = schedule_id) l = Some (i, target) ->
  json_schedule request = Some new_schedule ->
  update_schedule first_run_time request schedule_id w
  = (save_config;; config_changed first_run_time;;
     mret (jsonify "schedule"
             (VDict (copy_with_id (updated (method request) target new_schedule)
                       schedule_id))))
      (with_schedules w (<[i := updated (method request) target new_schedule]> l)).
Proof.
  intros Hl Hfind Hj.
  unfold update_schedule, data_schedule.
  erewrite bind_return by (by apply schedules_for_len_list).
  rewrite Hfind, Hj.
  erewrite bind_return by reflexivity.
  rewrite (bind_return _ _ w tt
             (with_schedules w (<[i := updated (method request) target new_schedule]> l)))
    by reflexivity.
  erewrite bind_return by (by apply schedule_by_id_list).
  erewrite find_addr_list_find; [|done|exact (list_find_addr _ _ _ _ Hfind)].
  cbn [fmap option_fmap option_map truthy_opt].
  rewrite truthy_copy_with_id. reflexivity.
Qed.

Lemma delete_steps schedule_id w l i target :
  schedule_list w = Some l ->
  list_find (fun s => addr s = schedule_id) l = Some (i, target) ->
  delete_schedule first_run_time schedule_id w
  = (save_config;; config_changed first_run_time;;
     mret (with_status (jsonify "detail" (VStr "deleted schedule")) 400))
      (with_schedules w (delete i l)).
Proof.
  intros Hl Hfind. unfold delete_schedule.
  erewrite bind_return by (by apply schedules_for_len_list).
  rewrite Hfind.
  rewrite (bind_return _ _ w tt (with_schedules w (delete i l))) by reflexivity.
  reflexivity.
Qed.

Lemma delete_not_found schedule_id w l :
  schedule_list w = Some l ->
  list_find (fun s => addr s = schedule_id) l = None ->
  delete_schedule first_run_time schedule_id w
  = (Return (error_response "invalid schedule id" 400), w).
Proof.
  intros Hl Hfind. unfold delete_schedule.
  erewrite bind_return by (by apply schedules_for_len_list).
  by rewrite Hfind.
Qed.

(** C4, as the code has it: when the write of the configuration fails in
    Create, Replace, Update or Delete, the error is raised to the caller,
    the in-memory schedule list keeps the mutation, and nothing else of the
    process state changes (no reconciliation has run). *)
Theorem persistence_failure_keeps_mutation (w : World) :
  config_file_writable (manager w) = false ->
  (forall request schedule,
      method request = POST ->
      json_schedule request = Some schedule ->
      schedules first_run_time request w
      = (Raise (IOError "save_config"),
         with_schedules w (enabled_list w ++ [schedule])))
  /\ (forall request schedule_id l i target new_schedule,
         schedule_list w = Some l ->
         list_find (fun s => addr s = schedule_id) l = Some (i, target) ->
         json_schedule request = Some new_schedule ->
         update_schedule first_run_time request schedule_id w
         = (Raise (IOError "save_config"),
            with_schedules w
              (<[i := updated (method request) target new_schedule]> l)))
  /\ (forall schedule_id l i target,
         schedule_list w = Some l ->
         list_find (fun s => addr s = schedule_id) l = Some (i, target) ->
         delete_schedule first_run_time schedule_id w
         = (Raise (IOError "save_config"), with_schedules w (delete i l))).
Proof.
  intros Hw. split; [|split].
  - intros request schedule Hm Hj.
    destruct (create_steps request schedule w Hm Hj) as (s' & _ & ->).
    by erewrite bind_raise by (by apply save_config_fails).
  - intros request schedule_id l i target new_schedule Hl Hfind Hj.
    rewrite (update_steps _ _ _ _ _ _ _ Hl Hfind Hj).
    by erewrite bind_raise by (by apply save_config_fails).
  - intros schedule_id l i target Hl Hfind.
    rewrite (delete_steps _ _ _ _ _ Hl Hfind).
    by erewrite bind_raise by (by apply save_config_fails).
Qed.

(** C10: Delete answers with status 400 when the id is not found, with an
    error body, and when the schedule is deleted, with a confirmation
    body; every response it returns has status 400. *)
Theorem delete_status_400 (schedule_id : Z) (w : World) :
  (forall l,
      schedule_list w = Some l ->
      list_find (fun s => addr s = schedule_id) l = None ->
      delete_schedule first_run_time schedule_id w
      = (Return {| body := {[ "error" := VStr "invalid schedule id" ]}; status := 400 |}, w))
  /\ (forall l i target w',
         schedule_list w = Some l ->
         list_find (fun s => addr s = schedule_id) l = Some (i, target) ->
         config_file_writable (manager w) = true ->
         setup_jobs first_run_time (saved (with_schedules w (delete i l))) = (Return tt, w') ->
         delete_schedule first_run_time schedule_id w
         = (Return {| body := {[ "detail" := VStr "deleted schedule" ]}; status := 400 |}, w'))
  /\ (forall r w',
         delete_schedule first_run_time schedule_id w = (Return r, w') ->
         status r = 400).
Proof.
  split; [|split].
  - intros l Hl Hfind. by apply (delete_not_found _ _ l).
  - intros l i target w' Hl Hfind Hw Hsetup.
    rewrite (delete_steps _ _ _ _ _ Hl Hfind).
    erewrite bind_return by (by apply save_config_writes).
    unfold config_changed. by erewrite bind_return by done.
  - intros r w' H. unfold delete_schedule, mbind, M_bind in H.
    destruct (schedules_for_len w) as [[l|e] w1]; [|done].
    destruct (list_find _ l) as [[i t]|].
    + repeat match type of H with
             | context [let (_, _) := ?x in _] => destruct x as [[?|?] ?]; try done
             end.
      by inversion H.
    + by inversion H.
Qed.

(** The listing is computed from the configuration alone. *)
Lemma list_ignores_scheduler request w sch :
  method request = GET ->
  (schedules first_run_time request (with_scheduler w sch)).1
  = (schedules first_run_time request w).1.
Proof.
  intros Hm. unfold schedules. rewrite Hm.
  unfold mbind, M_bind, get_world. cbn.
  destruct (config_schedules (manager w)) as [c|]; [destruct (config_truthy c)|]; done.
Qed.

End APIFacts.

Lemma persistence_failure_keeps_mutation_witness :
  schedules pending_first_run (create_request (tv_at 200)) unwritable_world
  = (Raise (IOError "save_config"),
     with_schedules unwritable_world [tv_at 100; tv_at 200])
  /\ update_schedule pending_first_run patch_request 100 unwritable_world
     = (Raise (IOError "save_config"),
        with_schedules unwritable_world [updated PATCH (tv_at 100) movies_patch])
  /\ delete_schedule pending_first_run 100 unwritable_world
     = (Raise (IOError "save_config"), with_schedules unwritable_world []).
Proof.
  destruct (persistence_failure_keeps_mutation pending_first_run unwritable_world eq_refl)
    as (H1 & H2 & H3).
  split; [|split].
  - exact (H1 (create_request (tv_at 200)) (tv_at 200) eq_refl eq_refl).
  - exact (H2 patch_request 100 [tv_at 100] 0%nat (tv_at 100) movies_patch
             eq_refl eq_refl eq_refl).
  - exact (H3 100 [tv_at 100] 0%nat (tv_at 100) eq_refl eq_refl).
Defined.

(** C4, as stated, fails: the write of the configuration fails during a
    Create, the handler raises, and the in-memory list is not the list the
    operation began with: it holds the new schedule. *)
Lemma rollback_counterexample :
  config_file_writable (manager unwritable_world) = false
  /\ (schedules pending_first_run (create_request (tv_at 200)) unwritable_world).1
     = Raise (IOError "save_config")
  /\ schedule_list unwritable_world = Some [tv_at 100]
  /\ schedule_list
       (schedules pending_first_run (create_request (tv_at 200)) unwritable_world).2
     = Some [tv_at 100; tv_at 200]
  /\ schedule_list
       (schedules pending_first_run (create_request (tv_at 200)) unwritable_world).2
     <> schedule_list unwritable_world.
Proof.
  split; [reflexivity|]. split; [reflexivity|]. split; [reflexivity|].
  split; [reflexivity|].
  intros H. vm_compute in H. discriminate H.
Qed.

Lemma delete_status_400_witness :
  delete_schedule pending_first_run 999 synced_world
  = (Return {| body := {[ "error" := VStr "invalid schedule id" ]}; status := 400 |},
     synced_world)
  /\ delete_schedule pending_first_run 100 synced_world
     = (Return {| body := {[ "detail" := VStr "deleted schedule" ]}; status := 400 |},
        (setup_jobs pending_first_run (saved (with_schedules synced_world []))).2)
  /\ status {| body := {[ "detail" := VStr "deleted schedule" ]}; status := 400 |} = 400.
Proof.
  destruct (delete_status_400 pending_first_run 999 synced_world) as (H1 & _ & _).
  destruct (delete_status_400 pending_first_run 100 synced_world) as (_ & H2 & H3).
  specialize (H2 [tv_at 100] 0%nat (tv_at 100)
                (setup_jobs pending_first_run (saved (with_schedules synced_world []))).2
                eq_refl eq_refl eq_refl eq_refl).
  split; [|split].
  - exact (H1 [tv_at 100] eq_refl eq_refl).
  - exact H2.
  - exact (H3 _ _ H2).
Defined.

(** C5 at its failing input: Create is given a config with both [interval]
    and [schedule], which the schema rejects; the handler appends it to the
    schedule list, writes the configuration, registers its job and returns it
    with its id. *)
Theorem create_accepts_invalid_config (CronTrigger : gmap string value -> option exn) :
  validate CronTrigger item_schema (VDict (fields (both_triggers 100))) = false
  /\ validate CronTrigger main_schema (VList [VDict (fields (both_triggers 100))]) = false
  /\ (schedules pending_first_run (create_request (both_triggers 100)) empty_world).1
     = Return (jsonify "schedule"
                 (VDict (<["id" := VInt 100]> (fields (both_triggers 100)))))
  /\ schedule_list
       (schedules pending_first_run (create_request (both_triggers 100)) empty_world).2
     = Some [both_triggers 100]
  /\ config_file
       (manager
          (schedules pending_first_run (create_request (both_triggers 100)) empty_world).2)
     = Some (Schedules [both_triggers 100])
  /\ observed_ids
       (schedules pending_first_run (create_request (both_triggers 100)) empty_world).2
     = ["100"].
Proof.
  assert (Hv : validate CronTrigger item_schema (VDict (fields (both_triggers 100))) = false)
    by (apply validate_item_xor; vm_compute; reflexivity).
  split; [exact Hv|]. split.
  { eapply validate_main_rejects_item; [apply list_elem_of_here|exact Hv]. }
  repeat split; vm_compute; reflexivity.
Qed.

(** C6 at its failing input: the schedule at address 100 has the live job
    [100] with a next run time; the listing returns the config with its id
    and without the next run time, which reading the single schedule
    returns. *)
Theorem list_omits_next_run_time :
  (schedules pending_first_run list_request synced_world).1
  = Return {| body := {[ "schedules" :=
                           VList [VDict (<["id" := VInt 100]> (hourly "tv"))] ]};
              status := 200 |}
  /\ (get_schedule 100 synced_world).1
     = Return {| body := {[ "schedule" :=
                              VDict (<["next_run_time" := VDatetime 1700000000]>
                                       (<["id" := VInt 100]> (hourly "tv"))) ]};
                 status := 200 |}.
Proof. split; vm_compute; reflexivity. Qed.

(** * Further properties *)

Set Warnings "-clear-no-such-hyp".

(** ** The schemas, characterised *)

Lemma singleton_dict (d : gmap string value) (k : string) (x : value) :
  d !! k = Some x -> dom d ⊆ {[ k ]} -> d = {[ k := x ]}.
Proof.
  intros Hk Hdom. apply map_eq. intros i.
  destruct (decide (i = k)) as [->|Hne].
  - by rewrite lookup_singleton_eq.
  - rewrite lookup_singleton_ne by done.
    apply not_elem_of_dom. set_solver.
Qed.

Section IntervalFacts.
Variable CronTrigger : gmap string value -> option exn.

(** A schema that starts with [type: object] admits dicts only. *)
Lemma validate_object s v :
  validate CronTrigger (Ktype [TObject] :: s) v = true -> exists d, v = VDict d.
Proof.
  unfold validate. cbn [forallb]. intros H. apply andb_prop in H as [H _].
  destruct v; try discriminate H. eauto.
Qed.

Lemma interval_schema_dict (d : gmap string value) :
  validate CronTrigger interval_schema (VDict d) = true ->
  exists unit x, unit ∈ UNITS /\ is_type TNumber x = true /\ d = {[ unit := x ]}.
Proof.
  unfold validate. cbn.
  rewrite !andb_true_r.
  intros H. apply andb_prop in H as [Hprops H]. apply andb_prop in H as [Hone Hadd].
  destruct (bool_decide ("minutes" ∈ dom d)) eqn:Hm, (bool_decide ("hours" ∈ dom d)) eqn:Hh,
    (bool_decide ("days" ∈ dom d)) eqn:Hd, (bool_decide ("weeks" ∈ dom d)) eqn:Hw;
    try discriminate Hone; clear Hone.
  all: apply bool_decide_eq_true in Hadd.
  all: repeat match goal with
         | H : bool_decide _ = true |- _ => apply bool_decide_eq_true in H
         | H : bool_decide _ = false |- _ => apply bool_decide_eq_false in H
         end.
  all: assert (Hsub : dom d ⊆ {[ "minutes"; "hours"; "days"; "weeks" ]}) by set_solver;
    clear Hadd.
  all: repeat match goal with
         | H : ?k ∉ dom _ |- _ => rewrite (proj1 (not_elem_of_dom _ k) H) in Hprops
         | H : ?k ∈ dom _ |- _ => destruct (proj1 (elem_of_dom _ k) H) as [x Hx]; rewrite Hx in Hprops
         end; cbn in Hprops.
  - exists "minutes", x. split; [unfold UNITS; set_solver|].
    split; [by destruct x|]. apply singleton_dict; [done|]. set_solver.
  - exists "hours", x. split; [unfold UNITS; set_solver|].
    split; [by destruct x|]. apply singleton_dict; [done|]. set_solver.
  - exists "days", x. split; [unfold UNITS; set_solver|].
    split; [by destruct x|]. apply singleton_dict; [done|]. set_solver.
  - exists "weeks", x. split; [unfold UNITS; set_solver|].
    split; [by destruct x|]. apply singleton_dict; [done|]. set_solver.
Qed.

(** X2: [interval_schema] accepts exactly the dicts with a single key,
    one of [UNITS], whose value is a number. *)
Theorem interval_schema_valid (v : value) :
  validate CronTrigger interval_schema v = true
  <-> exists unit x, unit ∈ UNITS /\ is_type TNumber x = true /\ v = VDict {[ unit := x ]}.
Proof.
  split.
  - intros H. destruct (validate_object _ _ H) as [d ->].
    destruct (interval_schema_dict _ H) as (unit & x & Hu & Hx & ->). eauto.
  - intros (unit & x & Hu & Hx & ->).
    unfold UNITS in Hu.
    repeat (apply elem_of_cons in Hu as [->|Hu]);
      [..|by apply elem_of_nil in Hu];
      destruct x; try discriminate Hx; vm_compute; reflexivity.
Qed.

End IntervalFacts.

Section MainSchemaFacts.
Variable CronTrigger : gmap string value -> option exn.

(** X1: [main_schema] accepts exactly the value [false] and the lists
    whose items all satisfy the item schema. *)
Theorem main_schema_valid (v : value) :
  validate CronTrigger main_schema v = true
  <-> v = VBool false
      \/ exists l, v = VList l /\ forallb (validate CronTrigger item_schema) l = true.
Proof.
  destruct v as [| [|] | z | q | s | t | l | d ].
  all: try (split; [intros H; unfold validate in H; cbn -[item_schema] in H; discriminate H
                   | intros [H | (l' & H & _)]; discriminate H]).
  - split; [intros _; by left | reflexivity].
  - rewrite validate_main_list. split.
    + intros H. right. by exists l.
    + intros [H | (l' & H & Hall)]; [discriminate H|]. by inversion H; subst.
Qed.

End MainSchemaFacts.

Section CronFacts.
Variable CronTrigger : gmap string value -> option exn.

Lemma conforms_cron_dict d :
  conforms CronTrigger "cron_schedule" (VDict d) = bool_decide (CronTrigger d = None).
Proof.
  unfold conforms, is_cron_schedule. cbn.
  destruct (CronTrigger d) as [e|]; [|done].
  by destruct e.
Qed.

Lemma check_properties names ps d :
  check CronTrigger names (Kproperties ps) (VDict d) = true
  <-> forall name sub x,
        (name, sub) ∈ ps -> d !! name = Some x -> validate CronTrigger sub x = true.
Proof.
  cbn [check]. rewrite forallb_forall. split.
  - intros H name sub x Hin Hx. apply list_elem_of_In, H in Hin. cbn in Hin.
    by rewrite Hx in Hin.
  - intros H [name sub] Hin. cbn. destruct (d !! name) as [x|] eqn:Hx; [|done].
    apply (H name sub x); [by apply list_elem_of_In|done].
Qed.

Lemma cron_schema_dict (d : gmap string value) :
  validate CronTrigger cron_schema (VDict d) = true
  <-> CronTrigger d = None
      /\ dom d ⊆ list_to_set (property_names cron_schema)
      /\ forall k x, d !! k = Some x -> is_type TInteger x || is_type TString x = true.
Proof.
  unfold validate at 1, cron_schema. cbn [forallb].
  rewrite !andb_true_iff, check_properties.
  cbn [check existsb is_type orb property_names flat_map map fst app].
  rewrite conforms_cron_dict, !bool_decide_eq_true.
  split.
  - intros (_ & Hprops & Hfmt & Hadd & _). split; [done|]. split; [done|].
    intros k x Hk.
    assert (Hin : k ∈ dom d) by (apply elem_of_dom; eauto).
    apply Hadd in Hin.
    assert (Hv : validate CronTrigger [Ktype [TInteger; TString]] x = true).
    { apply (Hprops k _ x); [|done]. cbn in Hin. set_solver. }
    cbn in Hv. by rewrite !andb_true_r, orb_false_r in Hv.
  - intros (Hfmt & Hadd & Hty). split; [done|]. split; [|done].
    intros name sub x Hin Hx. apply Hty in Hx.
    assert (sub = [Ktype [TInteger; TString]]) as ->.
    { repeat (apply elem_of_cons in Hin as [Hin|Hin]; [by inversion Hin|]).
      by apply elem_of_nil in Hin. }
    cbn. by rewrite !andb_true_r, orb_false_r.
Qed.

(** X3: [cron_schema] accepts exactly the dicts from which [CronTrigger]
    builds a trigger, whose keys are among the seven cron fields and whose
    values are integers or strings. *)
Theorem cron_schema_valid (v : value) :
  validate CronTrigger cron_schema v = true
  <-> exists d, v = VDict d
      /\ CronTrigger d = None
      /\ dom d ⊆ list_to_set (property_names cron_schema)
      /\ forall k x, d !! k = Some x -> is_type TInteger x || is_type TString x = true.
Proof.
  split.
  - intros H. destruct (validate_object _ _ _ H) as [d ->].
    exists d. split; [done|]. by apply cron_schema_dict.
  - intros (d & -> & H). by apply cron_schema_dict.
Qed.

End CronFacts.

Lemma forallb_pointwise {A} (f g : A -> bool) (l : list A) :
  (forall x, f x = g x) -> forallb f l = forallb g l.
Proof. intros H. induction l as [|x l IH]; cbn; [done|]. by rewrite H, IH. Qed.

Section ItemFacts.
Variable CronTrigger : gmap string value -> option exn.

Lemma tasks_schema_valid t :
  validate CronTrigger tasks_schema t = true
  <-> (exists s, t = VStr s)
      \/ exists l, t = VList l /\ forallb (is_type TString) l = true.
Proof.
  destruct t as [| b | z | q | s | tm | l | d ].
  all: try (split; [intros H; vm_compute in H; discriminate H
                   | intros [[? H] | (? & H & _)]; discriminate H]).
  - split; [intros _; left; eauto | reflexivity].
  - unfold validate. cbn. rewrite andb_true_r. split.
    + intros H. right. exists l. split; [done|].
      etrans; [|exact H]. apply forallb_pointwise. intros x. destruct x; reflexivity.
    + intros [[? H] | (l' & H & Hall)]; [discriminate H|]. inversion H; subst l'.
      etrans; [|exact Hall]. apply forallb_pointwise. intros x. destruct x; reflexivity.
Qed.

Lemma item_schema_dict d :
  validate CronTrigger item_schema (VDict d) = true
  <-> (exists t, d !! "tasks" = Some t /\ validate CronTrigger tasks_schema t = true)
      /\ (forall x, d !! "interval" = Some x -> validate CronTrigger interval_schema x = true)
      /\ (forall x, d !! "schedule" = Some x -> validate CronTrigger cron_schema x = true)
      /\ has_key "interval" d ≠ has_key "schedule" d
      /\ dom d ⊆ {[ "tasks"; "interval"; "schedule" ]}.
Proof.
  unfold validate at 1, item_schema. cbn [forallb].
  rewrite !andb_true_iff, check_properties, trigger_oneOf_check.
  cbn [check forallb property_names flat_map map fst app orb].
  rewrite !andb_true_r, !bool_decide_eq_true.
  split.
  - intros (Hprops & Hreq & Hone & _ & Hadd & _).
    apply elem_of_dom in Hreq as [t Ht].
    split; [exists t; split; [done|]; apply (Hprops "tasks" _ t); [set_solver|done]|].
    split; [intros x Hx; apply (Hprops "interval" _ x); [set_solver|done]|].
    split; [intros x Hx; apply (Hprops "schedule" _ x); [set_solver|done]|].
    split; [by destruct (has_key "interval" d), (has_key "schedule" d)|].
    set_solver.
  - intros ((t & Ht & Hvt) & Hi & Hs & Hone & Hadd).
    split_and!.
    2: { apply elem_of_dom. eauto. }
    2: { destruct (has_key "interval" d), (has_key "schedule" d); cbn; congruence. }
    2: { reflexivity. }
    2: { intros k Hk. apply Hadd in Hk. set_solver. }
    2: { reflexivity. }
    intros name sub x Hin Hx.
    repeat (apply elem_of_cons in Hin as [Hin|Hin];
            [inversion Hin; subst name sub; clear Hin|]);
      [..|by apply elem_of_nil in Hin].
    + rewrite Ht in Hx. by inversion Hx; subst.
    + by apply Hi.
    + by apply Hs.
Qed.

Lemma item_schema_not_dict v :
  (forall d, v ≠ VDict d) -> validate CronTrigger item_schema v = false.
Proof.
  intros H. destruct v as [| b | z | q | s | t | l | d ]; [..|by destruct (H d)];
    reflexivity.
Qed.

(** X4: the item schema accepts exactly the dicts that have [tasks], a
    string or a list of strings, exactly one of [interval] and [schedule],
    valid for its own schema, and no other key. *)
Theorem item_schema_valid (v : value) :
  validate CronTrigger item_schema v = true
  <-> exists d, v = VDict d
      /\ (exists t, d !! "tasks" = Some t /\ validate CronTrigger tasks_schema t = true)
      /\ (forall x, d !! "interval" = Some x ->
            validate CronTrigger interval_schema x = true)
      /\ (forall x, d !! "schedule" = Some x -> validate CronTrigger cron_schema x = true)
      /\ has_key "interval" d ≠ has_key "schedule" d
      /\ dom d ⊆ {[ "tasks"; "interval"; "schedule" ]}.
Proof.
  split.
  - intros H. destruct v as [| b | z | q | s | t | l | d ];
      try (rewrite item_schema_not_dict in H by done; discriminate H).
    exists d. split; [done|]. by apply item_schema_dict.
  - intros (d & -> & H). by apply item_schema_dict.
Qed.

End ItemFacts.

(** ** From a valid schedule to [add_job] *)

Lemma join_tasks_strings l :
  forallb (is_type TString) l = true ->
  exists names, join_tasks l = Return names /\ map VStr names = l.
Proof.
  induction l as [|x l IH]; cbn; [by exists []|].
  intros H. apply andb_prop in H as [Hx Hl].
  destruct (IH Hl) as (names & Hj & Hm).
  destruct x; try discriminate Hx. exists (s :: names). rewrite Hj. split; [done|].
  cbn. by rewrite Hm.
Qed.

Lemma mret_bind {A B} (a : A) (f : A -> M B) : (mret a ≫= f) = f a.
Proof. reflexivity. Qed.

Section SchemaReconcile.
Variable CronTrigger : gmap string value -> option exn.
Variable first_run_time :
  BackgroundScheduler -> string -> gmap string value -> outcome (option Z).

Lemma interval_schema_inv v :
  validate CronTrigger interval_schema v = true ->
  exists unit x, unit ∈ UNITS /\ is_type TNumber x = true /\ v = VDict {[ unit := x ]}.
Proof.
  intros H. destruct (validate_object _ _ _ H) as [d ->].
  destruct (interval_schema_dict _ _ H) as (unit & x & Hu & Hx & ->). eauto.
Qed.

Lemma cron_schema_inv v :
  validate CronTrigger cron_schema v = true ->
  exists kw, v = VDict kw /\ dom kw ⊆ list_to_set (property_names cron_schema).
Proof.
  intros H. destruct (validate_object _ _ _ H) as [d ->].
  exists d. split; [done|]. by apply cron_schema_dict in H as (_ & H & _).
Qed.

Lemma add_configured_valid (job_config : schedule) (jid : string) :
  validate CronTrigger item_schema (VDict (fields job_config)) = true ->
  exists tasks names trigger kw,
    add_configured first_run_time job_config jid
    = add_job first_run_time tasks jid (String.concat "," names) trigger kw
    /\ map VStr names = tasks
    /\ (fields job_config !! "tasks" = Some (VList tasks)
        \/ exists s, fields job_config !! "tasks" = Some (VStr s) /\ tasks = [VStr s])
    /\ (trigger = "interval" /\ fields job_config !! "interval" = Some (VDict kw)
        \/ trigger = "cron" /\ fields job_config !! "schedule" = Some (VDict kw))
    /\ trigger_of job_config = Some (trigger, VDict kw).
Proof.
  intros H. apply item_schema_dict in H as ((t & Ht & Hvt) & Hi & Hs & Hone & _).
  assert (Htasks : exists tasks names,
    (match fields job_config !! "tasks" with
     | Some (VList l) => mret l
     | Some t => mret [t]
     | None => raise (KeyError "tasks")
     end : M (list value)) = mret tasks
    /\ join_tasks tasks = Return names /\ map VStr names = tasks
    /\ (fields job_config !! "tasks" = Some (VList tasks)
        \/ exists s, fields job_config !! "tasks" = Some (VStr s) /\ tasks = [VStr s])).
  { rewrite Ht. apply tasks_schema_valid in Hvt as [[s ->] | (l & -> & Hall)].
    - exists [VStr s], [s]. split_and!; try done. right. eauto.
    - destruct (join_tasks_strings l Hall) as (names & Hj & Hm).
      exists l, names. split_and!; try done. by left. }
  destruct Htasks as (tasks & names & Htk & Hj & Hm & Ht').
  assert (Htrig : exists trigger kw,
    (match fields job_config !! "interval" with
     | Some a => mret ("interval", a)
     | None => match fields job_config !! "schedule" with
               | Some a => mret ("cron", a)
               | None => raise (KeyError "schedule")
               end
     end : M (string * value)) = mret (trigger, VDict kw)
    /\ forallb (fun k => negb (bool_decide (k ∈ dom kw)))
         ["func"; "args"; "id"; "name"; "trigger"] = true
    /\ (trigger = "interval" /\ fields job_config !! "interval" = Some (VDict kw)
        \/ trigger = "cron" /\ fields job_config !! "schedule" = Some (VDict kw))
    /\ trigger_of job_config = Some (trigger, VDict kw)).
  { unfold trigger_of. destruct (fields job_config !! "interval") as [x|] eqn:Hx.
    - destruct (interval_schema_inv x (Hi x eq_refl)) as (unit & n & Hu & _ & ->).
      exists "interval", {[ unit := n ]}. split; [done|]. split; [|split; [by left|done]].
      unfold UNITS in Hu.
      repeat (apply elem_of_cons in Hu as [->|Hu]); [..|by apply elem_of_nil in Hu];
        vm_compute; reflexivity.
    - destruct (fields job_config !! "schedule") as [x|] eqn:Hy.
      + destruct (cron_schema_inv x (Hs x eq_refl)) as (kw & -> & Hdom).
        exists "cron", kw. split; [done|]. split; [|split; [by right|done]].
        cbn in Hdom. cbn. rewrite !andb_true_r, !andb_true_iff, !negb_true_iff.
        rewrite !bool_decide_eq_false. set_solver.
      + exfalso. apply Hone. unfold has_key.
        apply not_elem_of_dom in Hx, Hy.
        by rewrite !bool_decide_eq_false_2. }
  destruct Htrig as (trigger & kw & Hsel & Hfree & Hkind & Hof).
  exists tasks, names, trigger, kw. split; [|done].
  unfold add_configured. rewrite Hsel, mret_bind. cbv beta iota.
  rewrite Htk, mret_bind, Hj, mret_bind. by rewrite Hfree.
Qed.

(** X5: for a schedule that satisfies the item schema the loop body of
    [setup_jobs] raises nothing of its own: it is the call of
    [scheduler.add_job] with the task list (a single task is wrapped into
    a list), the tasks joined by commas as name, and the trigger kind and
    arguments of the member that is present. *)
Theorem valid_schedule_reaches_add_job (job_config : schedule) (jid : string) :
  validate CronTrigger item_schema (VDict (fields job_config)) = true ->
  exists tasks names trigger kw,
    add_configured first_run_time job_config jid
    = add_job first_run_time tasks jid (String.concat "," names) trigger kw
    /\ map VStr names = tasks
    /\ (fields job_config !! "tasks" = Some (VList tasks)
        \/ exists s, fields job_config !! "tasks" = Some (VStr s) /\ tasks = [VStr s])
    /\ (trigger = "interval" /\ fields job_config !! "interval" = Some (VDict kw)
        \/ trigger = "cron" /\ fields job_config !! "schedule" = Some (VDict kw)).
Proof.
  intros H.
  destruct (add_configured_valid job_config jid H)
    as (tasks & names & trigger & kw & H1 & H2 & H3 & H4 & _).
  by exists tasks, names, trigger, kw.
Qed.

End SchemaReconcile.

(** ** The two loops of the reconciler, for every outcome *)

Lemma bind_inv {A B} (m : M A) (f : A -> M B) w r w' :
  (m ≫= f) w = (r, w') ->
  (exists a w1, m w = (Return a, w1) /\ f a w1 = (r, w'))
  \/ (exists e, m w = (Raise e, w') /\ r = Raise e).
Proof.
  unfold mbind, M_bind. destruct (m w) as [[a|e] w1]; intros H.
  - left. eauto.
  - right. inversion H; subst. eauto.
Qed.

Lemma elem_of_filter_bool {A} (P : A -> bool) (l : list A) (x : A) :
  x ∈ List.filter P l <-> x ∈ l /\ P x = true.
Proof. rewrite !list_elem_of_In. apply filter_In. Qed.

Lemma added_ids_app cs cs' : added_ids (cs ++ cs') = added_ids cs ++ added_ids cs'.
Proof. unfold added_ids. by rewrite flat_map_app. Qed.

Lemma removed_ids_app cs cs' : removed_ids (cs ++ cs') = removed_ids cs ++ removed_ids cs'.
Proof. unfold removed_ids. by rewrite flat_map_app. Qed.

Section LoopFacts.
Variable first_run_time :
  BackgroundScheduler -> string -> gmap string value -> outcome (option Z).

(** What one call of [add_job] does, whatever its outcome. *)
Lemma add_job_any tasks jid name trigger kw w r w' :
  add_job first_run_time tasks jid name trigger kw w = (r, w') ->
  manager w' = manager w /\ alloc w' = alloc w /\ log w' = log w
  /\ scheduler_running w' = scheduler_running w
  /\ calls w' = calls w ++ [Add_job tasks jid name trigger kw]
  /\ exists extra,
       observed_jobs w' = observed_jobs w ++ extra
       /\ (forall j, j ∈ extra -> Job.id j = jid)
       /\ (r = Return tt -> jid ∈ map Job.id extra /\ jid ∉ observed_ids w).
Proof.
  assert (Hnone : forall (js : list Job.t) (e : exn),
    exists extra : list Job.t,
      js = js ++ extra /\ (forall j, j ∈ extra -> Job.id j = jid)
      /\ (Raise e = Return tt -> jid ∈ map Job.id extra /\ jid ∉ map Job.id js)).
  { intros js e. exists []. rewrite app_nil_r. split; [done|].
    split; [intros j Hj; by apply elem_of_nil in Hj|intros Hr; discriminate Hr]. }
  unfold add_job, mbind, M_bind, record, get_scheduler, scheduler_running,
    observed_jobs, observed_ids.
  destruct w as [m [s|] lg cs al]; cbn.
  - destruct (first_run_time s trigger kw) as [nrt|e]; cbn.
    + case_bool_decide as Hin; cbn; intros H; inversion H; subst; cbn.
      * by split_and!.
      * split_and!; try done. eexists [_]. split; [done|]. split.
        -- intros j Hj. apply list_elem_of_singleton in Hj. by subst.
        -- intros _. split; [apply list_elem_of_here|done].
    + intros H; inversion H; subst; cbn. by split_and!.
  - intros H; inversion H; subst; cbn. split_and!; try done.
    all: try (exists []; split; [done|];
              split; [intros j Hj; by apply elem_of_nil in Hj|intros Hr; discriminate Hr]).
Qed.

Lemma remove_job_any jid w r w' :
  remove_job jid w = (r, w') ->
  manager w' = manager w /\ alloc w' = alloc w /\ log w' = log w
  /\ scheduler_running w' = scheduler_running w
  /\ calls w' = calls w ++ [Remove_job jid]
  /\ (forall j, j ∈ observed_jobs w' <-> j ∈ observed_jobs w /\ Job.id j ≠ jid).
Proof.
  unfold remove_job, mbind, M_bind, record, get_scheduler, scheduler_running, observed_jobs.
  destruct w as [m [s|] lg cs al]; cbn.
  - case_bool_decide as Hin; cbn; intros H; inversion H; subst; cbn.
    + split_and!; try done. intros j.
      by rewrite elem_of_filter_bool, negb_true_iff, String.eqb_neq.
    + split_and!; try done. intros j. split; [|by intros [? _]].
      intros Hj. split; [done|]. intros <-. apply Hin, elem_of_map. eauto.
  - intros H; inversion H; subst; cbn. split_and!; try done.
    intros j. split; [intros Hj; by apply elem_of_nil in Hj|by intros [? _]].
Qed.

Lemma appended_refl ok w : appended ok w w [].
Proof.
  unfold appended. rewrite app_nil_r. split_and!; try done.
  - intros j Hj. by apply elem_of_nil in Hj.
  - exists []. rewrite app_nil_r. split_and!; try done.
    intros jid Hj. by apply elem_of_nil in Hj.
Qed.

Lemma appended_trans ok w1 w2 w3 e1 e2 :
  appended ok w1 w2 e1 -> appended ok w2 w3 e2 -> appended ok w1 w3 (e1 ++ e2).
Proof.
  intros (Hm1 & Ha1 & Hr1 & Ho1 & He1 & cs1 & Hc1 & Hrem1 & Hadd1)
         (Hm2 & Ha2 & Hr2 & Ho2 & He2 & cs2 & Hc2 & Hrem2 & Hadd2).
  unfold appended. split_and!; try congruence.
  - by rewrite Ho2, Ho1, app_assoc.
  - intros j Hj. apply elem_of_app in Hj as [Hj|Hj]; eauto.
  - exists (cs1 ++ cs2). split_and!.
    + by rewrite Hc2, Hc1, app_assoc.
    + by rewrite removed_ids_app, Hrem1, Hrem2.
    + intros jid Hj. rewrite added_ids_app in Hj. apply elem_of_app in Hj as [Hj|Hj]; eauto.
Qed.

Lemma add_configured_any job_config jid w r w' :
  add_configured first_run_time job_config jid w = (r, w') ->
  exists extra,
    appended (fun i => i = jid) w w' extra
    /\ (r = Return tt -> jid ∈ map Job.id extra).
Proof.
  assert (Hstay : forall e, exists extra,
    appended (fun i => i = jid) w w extra /\ (Raise e = Return tt -> jid ∈ map Job.id extra)).
  { intros e. exists []. split; [apply appended_refl|intros Hr; discriminate Hr]. }
  unfold add_configured, mbind, M_bind, mret, M_ret, raise. intros H.
  repeat case_match; simplify_eq; try apply Hstay.
  all: match goal with
       | H : add_job _ _ _ _ _ _ _ = _ |- _ =>
           apply add_job_any in H
             as (Hm & Ha & _ & Hr & Hc & extra & Ho & He & Hret)
       end.
  all: exists extra; split; [|intros Hr'; by apply Hret].
  all: unfold appended; split_and!; try done.
  all: eexists [_]; split_and!; [done|done|].
  all: intros i Hi; apply list_elem_of_singleton in Hi; done.
Qed.

Lemma appended_weaken (ok ok' : string -> Prop) w w' extra :
  (forall i, ok i -> ok' i) -> appended ok w w' extra -> appended ok' w w' extra.
Proof.
  intros Hok (Hm & Ha & Hr & Ho & He & cs & Hc & Hrem & Hadd).
  unfold appended. split_and!; try done; [by eauto|].
  exists cs. split_and!; eauto.
Qed.

Lemma add_missing_any existing config acc w r w' :
  add_missing first_run_time existing config acc w = (r, w') ->
  exists extra,
    appended (fun i => i ∈ job_ids config /\ i ∉ existing) w w' extra
    /\ (forall ids, r = Return ids ->
          ids = acc ++ job_ids config
          /\ forall i, i ∈ job_ids config -> i ∉ existing -> i ∈ map Job.id extra).
Proof.
  revert acc w. induction config as [|c config IH]; intros acc w H.
  - cbn in H. inversion H; subst. exists []. split; [apply appended_refl|].
    intros ids Hr. inversion Hr; subst. rewrite app_nil_r. split; [done|].
    intros i Hi. by apply elem_of_nil in Hi.
  - cbn [add_missing] in H. apply bind_inv in H as [(a & w1 & Hstep & Hrest)|(e & Hstep & ->)].
    + assert (Hfirst : exists e1,
        appended (fun i => i ∈ job_ids (c :: config) /\ i ∉ existing) w w1 e1
        /\ (unicode (addr c) ∉ existing -> unicode (addr c) ∈ map Job.id e1)).
      { case_bool_decide as Hin.
        - inversion Hstep; subst. exists []. split; [apply appended_refl|done].
        - apply add_configured_any in Hstep as (e1 & Happ & Hret).
          exists e1. split; [|intros _; apply Hret; by destruct a].
          eapply appended_weaken; [|exact Happ].
          intros i ->. split; [apply list_elem_of_here|done]. }
      destruct Hfirst as (e1 & Happ1 & Hc).
      apply IH in Hrest as (e2 & Happ2 & Hret).
      exists (e1 ++ e2). split.
      * eapply appended_trans; [exact Happ1|].
        eapply appended_weaken; [|exact Happ2].
        intros i [Hi Hne]. split; [by apply list_elem_of_further|done].
      * intros ids Hr. destruct (Hret ids Hr) as [-> Hall]. split.
        -- cbn. by rewrite <- app_assoc.
        -- intros i Hi Hne. rewrite map_app. apply elem_of_app.
           apply elem_of_cons in Hi as [->|Hi]; [left; by apply Hc|right; by apply Hall].
    + case_bool_decide as Hin; [discriminate Hstep|].
      apply add_configured_any in Hstep as (e1 & Happ & _).
      exists e1. split; [|intros ids Hr; discriminate Hr].
      eapply appended_weaken; [|exact Happ].
      intros i ->. split; [apply list_elem_of_here|done].
Qed.

Lemma pruned_refl ok w : pruned ok w w [].
Proof.
  unfold pruned. split_and!; try done.
  - intros j. split; [intros Hj; split; [done|]; by intros ?%elem_of_nil|by intros [? _]].
  - intros i Hi. by apply elem_of_nil in Hi.
  - exists []. by rewrite app_nil_r.
Qed.

Lemma pruned_trans ok w1 w2 w3 g1 g2 :
  pruned ok w1 w2 g1 -> pruned ok w2 w3 g2 -> pruned ok w1 w3 (g1 ++ g2).
Proof.
  intros (Hm1 & Ha1 & Hr1 & Ho1 & He1 & cs1 & Hc1 & Hadd1 & Hrem1)
         (Hm2 & Ha2 & Hr2 & Ho2 & He2 & cs2 & Hc2 & Hadd2 & Hrem2).
  unfold pruned. split_and!; try congruence.
  - intros j. rewrite Ho2, Ho1, elem_of_app. tauto.
  - intros i Hi. apply elem_of_app in Hi as [Hi|Hi]; eauto.
  - exists (cs1 ++ cs2). split_and!.
    + by rewrite Hc2, Hc1, app_assoc.
    + by rewrite added_ids_app, Hadd1, Hadd2.
    + by rewrite removed_ids_app, Hrem1, Hrem2.
Qed.

Lemma remove_stale_any existing configured w r w' :
  remove_stale existing configured w = (r, w') ->
  exists gone,
    pruned (fun i => i ∈ existing /\ i ∉ configured) w w' gone
    /\ (r = Return tt -> forall i, i ∈ existing -> i ∉ configured -> i ∈ gone).
Proof.
  revert w. induction existing as [|jid existing IH]; intros w H.
  - cbn in H. inversion H; subst. exists []. split; [apply pruned_refl|].
    intros _ i Hi. by apply elem_of_nil in Hi.
  - cbn [remove_stale] in H.
    assert (Hone : forall r1 w1, remove_job jid w = (r1, w1) -> jid ∉ configured ->
      pruned (fun i => i ∈ jid :: existing /\ i ∉ configured) w w1 [jid]).
    { intros r1 w1 Hstep Hne.
      apply remove_job_any in Hstep as (Hm & Ha & _ & Hr & Hc & Ho).
      unfold pruned. split_and!; try done.
      - intros j. rewrite Ho. by rewrite list_elem_of_singleton.
      - intros i Hi. apply list_elem_of_singleton in Hi as ->.
        split; [apply list_elem_of_here|done].
      - by exists [Remove_job jid]. }
    assert (Hweak : forall w1 w2 g,
      pruned (fun i => i ∈ existing /\ i ∉ configured) w1 w2 g ->
      pruned (fun i => i ∈ jid :: existing /\ i ∉ configured) w1 w2 g).
    { intros w1 w2 g (Hm & Ha & Hr & Ho & He & Hcs). unfold pruned. split_and!; try done.
      intros i Hi. destruct (He i Hi). split; [by apply list_elem_of_further|done]. }
    apply bind_inv in H as [(a & w1 & Hstep & Hrest)|(e & Hstep & ->)].
    + apply IH in Hrest as (g2 & Hp2 & Hret).
      case_bool_decide as Hin.
      * inversion Hstep; subst. exists g2. split; [by apply Hweak|].
        intros Hr i Hi Hne. apply elem_of_cons in Hi as [->|Hi]; [done|by apply Hret].
      * exists ([jid] ++ g2). split.
        -- eapply pruned_trans; [by eapply Hone|by apply Hweak].
        -- intros Hr i Hi Hne. apply elem_of_app.
           apply elem_of_cons in Hi as [->|Hi];
             [left; apply list_elem_of_here|right; by apply Hret].
    + case_bool_decide as Hin; [discriminate Hstep|].
      exists [jid]. split; [by eapply Hone|intros Hr; discriminate Hr].
Qed.

End LoopFacts.

Lemma observed_ids_jobs w : observed_ids w = map Job.id (observed_jobs w).
Proof. unfold observed_ids, observed_jobs. by destruct (scheduler w). Qed.

Lemma new_calls_app_eq w w' cs : calls w' = calls w ++ cs -> new_calls w w' = cs.
Proof. intros H. unfold new_calls. by rewrite H, drop_app_length. Qed.

Lemma quiet_refl w : quiet w w.
Proof. unfold quiet. split_and!; try done. exists []. by rewrite app_nil_r. Qed.

Lemma log_msg_quiet lvl msg w : quiet w (log_msg lvl msg w).2.
Proof. unfold quiet. cbn. split_and!; try done. exists []. by rewrite app_nil_r. Qed.

Section SetupFacts.
Variable first_run_time :
  BackgroundScheduler -> string -> gmap string value -> outcome (option Z).

(** The tail of [setup_jobs] when schedules are configured. *)
Lemma start_if_stopped_any w r w' :
  (s ← get_scheduler;
   if negb (running s) then log_msg INFO "Starting scheduler";; start else mret tt) w
  = (r, w') ->
  quiet w w' /\ (r = Return tt -> scheduler_running w' = Some true).
Proof.
  unfold mbind, M_bind, get_scheduler, start, record, log_msg, quiet,
    scheduler_running, observed_jobs.
  destruct w as [m [s|] lg cs al]; cbn.
  - destruct (running s) eqn:Hr; cbn; intros H; inversion H; subst; cbn.
    + rewrite Hr. split_and!; try done. exists []. by rewrite app_nil_r.
    + split_and!; try done. by exists [Start].
  - intros H; inversion H; subst; cbn. split_and!; try done.
    exists []. by rewrite app_nil_r.
Qed.

(** The tail of [setup_jobs] when schedules are disabled. *)
Lemma shutdown_if_running_any w r w' :
  (s ← get_scheduler;
   if running s then log_msg INFO "Shutting down scheduler";; shutdown else mret tt) w
  = (r, w') ->
  quiet w w' /\ (r = Return tt -> scheduler_running w' = Some false).
Proof.
  unfold mbind, M_bind, get_scheduler, shutdown, record, log_msg, quiet,
    scheduler_running, observed_jobs.
  destruct w as [m [s|] lg cs al]; cbn.
  - destruct (running s) eqn:Hr; cbn; intros H; inversion H; subst; cbn.
    + split_and!; try done. by exists [Shutdown].
    + rewrite Hr. split_and!; try done. exists []. by rewrite app_nil_r.
  - intros H; inversion H; subst; cbn. split_and!; try done.
    exists []. by rewrite app_nil_r.
Qed.

Lemma quiet_reconciled w w' : quiet w w' -> reconciled w w'.
Proof.
  intros (Hm & Ha & Ho & cs & Hc & Hadd & Hrem).
  unfold reconciled. rewrite (new_calls_app_eq _ _ _ Hc), Hadd, Hrem, Ho.
  split_and!; try done; try by intros i ?%elem_of_nil. by left.
Qed.

Lemma setup_jobs_enabled_any w1 r w' :
  (s ← get_scheduler;
   let existing_job_ids := map Job.id (jobs s) in
   configured_job_ids ← add_missing first_run_time existing_job_ids (items (desired w1)) [];
   remove_stale existing_job_ids configured_job_ids;;
   s ← get_scheduler;
   if negb (running s) then log_msg INFO "Starting scheduler";; start else mret tt) w1
  = (r, w') ->
  reconciled w1 w'
  /\ (r = Return tt ->
      (forall i, i ∈ observed_ids w' <-> i ∈ desired_ids w1)
      /\ scheduler_running w' = Some true).
Proof.
  intros H.
  assert (Hquiet0 : forall e, reconciled w1 w1 /\ (Raise e = Return tt ->
      (forall i, i ∈ observed_ids w1 <-> i ∈ desired_ids w1)
      /\ scheduler_running w1 = Some true)).
  { intros e. split; [apply quiet_reconciled, quiet_refl|intros Hr; discriminate Hr]. }
  apply bind_inv in H as [(s & w0 & Hs & H)|(e & Hs & ->)]; cycle 1.
  { unfold get_scheduler in Hs. destruct (scheduler w1); inversion Hs; subst. apply Hquiet0. }
  assert (w0 = w1 /\ scheduler w1 = Some s) as [-> Hsch].
  { unfold get_scheduler in Hs. destruct (scheduler w1); inversion Hs; by subst. }
  assert (Hex : map Job.id (jobs s) = observed_ids w1)
    by (unfold observed_ids; by rewrite Hsch).
  cbv zeta in H. rewrite Hex in H. fold (job_ids (items (desired w1))) in *.
  change (desired_ids w1) with (job_ids (items (desired w1))).
  set (E := observed_ids w1) in *. set (C := job_ids (items (desired w1))) in *.
  assert (HE : forall i, i ∈ E <-> exists j, j ∈ observed_jobs w1 /\ Job.id j = i).
  { intros i. unfold E. rewrite observed_ids_jobs, elem_of_map. naive_solver. }
  apply bind_inv in H as [(ids & w2 & Hadd & H)|(e & Hadd & ->)].
  - apply add_missing_any in Hadd as (extra & Happ & Hret).
    destruct (Hret ids eq_refl) as [-> Hall]. cbn [app] in H. clear Hret.
    destruct Happ as (Hm2 & Ha2 & Hr2 & Ho2 & He2 & cs2 & Hc2 & Hrem2 & Hadd2).
    apply bind_inv in H as [([] & w3 & Hrm & H)|(e & Hrm & ->)].
    + apply remove_stale_any in Hrm as (gone & Hp & Hgone).
      specialize (Hgone eq_refl).
      destruct Hp as (Hm3 & Ha3 & Hr3 & Ho3 & He3 & cs3 & Hc3 & Hadd3 & Hrem3).
      apply start_if_stopped_any in H
        as ((Hm4 & Ha4 & Ho4 & cs4 & Hc4 & Hadd4 & Hrem4) & Hrun).
      assert (Hcalls : calls w' = calls w1 ++ (cs2 ++ cs3 ++ cs4))
        by (rewrite Hc4, Hc3, Hc2; by rewrite !app_assoc).
      assert (Hjobs : forall j, j ∈ observed_jobs w' <->
                (j ∈ observed_jobs w1 \/ j ∈ extra) /\ Job.id j ∉ gone).
      { intros j. by rewrite Ho4, Ho3, Ho2, elem_of_app. }
      split.
      * unfold reconciled. rewrite (new_calls_app_eq _ _ _ Hcalls).
        rewrite !added_ids_app, !removed_ids_app, Hrem2, Hadd3, Hadd4, Hrem4, Hrem3.
        rewrite !app_nil_r. cbn [app].
        split_and!; try congruence.
        -- intros j Hj. apply Hjobs in Hj as [[Hj|Hj] _]; [by left|right]. by apply He2.
        -- intros j Hj HjC. apply Hjobs. split; [by left|].
           intros Hg. apply He3 in Hg as [_ Hg]. done.
        -- intros i Hi. by apply Hadd2.
        -- intros i Hi. by apply He3.
      * intros Hr. split; [|by apply Hrun].
        intros i. rewrite observed_ids_jobs, elem_of_map. split.
        -- intros (j & -> & Hj). apply Hjobs in Hj as [[Hj|Hj] Hg].
           ++ destruct (decide (Job.id j ∈ C)) as [|Hn]; [done|].
              destruct Hg. apply Hgone; [|done]. apply HE. eauto.
           ++ by apply He2.
        -- intros Hi. destruct (decide (i ∈ E)) as [HiE|HiE].
           ++ apply HE in HiE as (j & Hj & <-). exists j. split; [done|].
              apply Hjobs. split; [by left|]. intros Hg. by apply He3 in Hg as [_ Hg].
           ++ specialize (Hall i Hi HiE). apply elem_of_map in Hall as (j & -> & Hj).
              exists j. split; [done|]. apply Hjobs. split; [by right|].
              intros Hg. by apply He3 in Hg as [Hg _].
    + apply remove_stale_any in Hrm as (gone & Hp & _).
      destruct Hp as (Hm3 & Ha3 & Hr3 & Ho3 & He3 & cs3 & Hc3 & Hadd3 & Hrem3).
      split; [|intros Hr; discriminate Hr].
      assert (Hcalls : calls w' = calls w1 ++ (cs2 ++ cs3))
        by (rewrite Hc3, Hc2; by rewrite !app_assoc).
      unfold reconciled. rewrite (new_calls_app_eq _ _ _ Hcalls).
      rewrite !added_ids_app, !removed_ids_app, Hrem2, Hadd3, Hrem3.
      rewrite !app_nil_r. cbn [app].
      split_and!; try congruence.
      * intros j Hj. apply Ho3 in Hj as [Hj _]. rewrite Ho2 in Hj.
        apply elem_of_app in Hj as [Hj|Hj]; [by left|right]. by apply He2.
      * intros j Hj HjC. apply Ho3. rewrite Ho2. split; [apply elem_of_app; by left|].
        intros Hg. apply He3 in Hg as [_ Hg]. done.
      * intros i Hi. by apply Hadd2.
      * intros i Hi. by apply He3.
  - apply add_missing_any in Hadd as (extra & Happ & _).
    destruct Happ as (Hm2 & Ha2 & Hr2 & Ho2 & He2 & cs2 & Hc2 & Hrem2 & Hadd2).
    split; [|intros Hr; discriminate Hr].
    unfold reconciled. rewrite (new_calls_app_eq _ _ _ Hc2), Hrem2.
    split_and!; try done.
    + intros j Hj. rewrite Ho2 in Hj.
      apply elem_of_app in Hj as [Hj|Hj]; [by left|right]. by apply He2.
    + intros j Hj HjC. rewrite Ho2. apply elem_of_app; by left.
    + intros i Hi. by apply elem_of_nil in Hi.
Qed.

End SetupFacts.

(** ** The reconciler *)

Section ReconcilerFacts.
Variable first_run_time :
  BackgroundScheduler -> string -> gmap string value -> outcome (option Z).

Lemma setup_jobs_any w r w' :
  setup_jobs first_run_time w = (r, w') ->
  reconciled w w'
  /\ (r = Return tt -> is_daemon (manager w) = true -> config_truthy (desired w) = true ->
      (forall i, i ∈ observed_ids w' <-> i ∈ desired_ids w)
      /\ scheduler_running w' = Some true).
Proof.
  unfold setup_jobs. intros H.
  apply bind_inv in H as [(w0 & w0' & Hw & H)|(e & Hw & _)]; [|discriminate Hw].
  inversion Hw; subst w0 w0'. clear Hw.
  destruct (is_daemon (manager w)) eqn:Hd; cbn [negb] in H.
  2: { inversion H; subst. split; [apply quiet_reconciled, quiet_refl|done]. }
  apply bind_inv in H as [([] & w1 & Hlog & H)|(e & Hlog & _)];
    [|destruct (config_schedules (manager w)); discriminate Hlog].
  assert (Hw1 : w1 = w \/ exists msg, w1 = (log_msg INFO msg w).2).
  { destruct (config_schedules (manager w)); inversion Hlog; subst; eauto. }
  assert (Hgoal : reconciled w1 w'
    /\ (r = Return tt -> config_truthy (desired w1) = true ->
        (forall i, i ∈ observed_ids w' <-> i ∈ desired_ids w1)
        /\ scheduler_running w' = Some true)).
  { cbv zeta in H. change (default _ (config_schedules (manager w))) with (desired w) in H.
    assert (Hdes : desired w = desired w1) by (by destruct Hw1 as [->|[msg ->]]).
    rewrite Hdes in H.
    destruct (config_truthy (desired w1)) eqn:Ht; cbn [negb] in H.
    - apply setup_jobs_enabled_any in H as [Hrec Hret]. split; [done|]. eauto.
    - apply shutdown_if_running_any in H as [Hq _].
      split; [by apply quiet_reconciled|done]. }
  destruct Hw1 as [->|[msg ->]]; [naive_solver|].
  destruct Hgoal as [Hrec Hret]. split; [exact Hrec|]. intros Hr _ Ht. by apply Hret.
Qed.

(** X6: when [setup_jobs] returns on a daemon with a non-empty schedule
    list (or with none configured), the ids of the jobs in the store are
    the ids derived from the list, the scheduler runs, and the manager is
    as before. *)
Theorem reconcile_converges (w w' : World) :
  is_daemon (manager w) = true ->
  config_truthy (desired w) = true ->
  setup_jobs first_run_time w = (Return tt, w') ->
  (forall jid, jid ∈ observed_ids w' <-> jid ∈ desired_ids w)
  /\ scheduler_running w' = Some true
  /\ manager w' = manager w.
Proof.
  intros Hd Ht H. apply setup_jobs_any in H as [Hrec Hret].
  destruct (Hret eq_refl Hd Ht). split_and!; try done. apply Hrec.
Qed.

(** X7: whatever its outcome, [setup_jobs] keeps every job whose id is
    configured as it is, and every job in the store afterwards was there
    before or has a configured id that was not in the store. *)
Theorem reconcile_keeps_configured_jobs (w : World) (j : Job.t) :
  (j ∈ observed_jobs w -> Job.id j ∈ desired_ids w ->
   j ∈ observed_jobs (setup_jobs first_run_time w).2)
  /\ (j ∈ observed_jobs (setup_jobs first_run_time w).2 ->
      j ∈ observed_jobs w \/ (Job.id j ∈ desired_ids w /\ Job.id j ∉ observed_ids w)).
Proof.
  destruct (setup_jobs first_run_time w) as [r w'] eqn:H.
  apply setup_jobs_any in H as [(_ & _ & Hnew & Hkeep & _) _]. cbn. split; eauto.
Qed.

(** X8: whatever its outcome, [setup_jobs] calls [add_job] only for
    configured ids that are not in the store and [remove_job] only for ids
    in the store that are not configured. *)
Theorem reconcile_calls_are_the_diff (w : World) (jid : string) :
  (jid ∈ added_ids (new_calls w (setup_jobs first_run_time w).2) ->
   jid ∈ desired_ids w /\ jid ∉ observed_ids w)
  /\ (jid ∈ removed_ids (new_calls w (setup_jobs first_run_time w).2) ->
      jid ∈ observed_ids w /\ jid ∉ desired_ids w).
Proof.
  destruct (setup_jobs first_run_time w) as [r w'] eqn:H.
  apply setup_jobs_any in H as [(_ & _ & _ & _ & Hadd & Hrem) _]. cbn. split; eauto.
Qed.

Lemma nil_of_no_elem {A} (l : list A) : (forall x, x ∉ l) -> l = [].
Proof. destruct l as [|x l]; [done|]. intros H. destruct (H x). apply list_elem_of_here. Qed.

(** X9: after a run of [setup_jobs] that returned on a daemon with a
    configured, non-empty schedule list, a second run makes no [add_job]
    and no [remove_job] call and leaves the same jobs in the store. *)
Theorem reconcile_twice (w w' : World) (l : list schedule) :
  is_daemon (manager w) = true ->
  config_schedules (manager w) = Some (Schedules l) ->
  l ≠ [] ->
  setup_jobs first_run_time w = (Return tt, w') ->
  added_ids (new_calls w' (setup_jobs first_run_time w').2) = []
  /\ removed_ids (new_calls w' (setup_jobs first_run_time w').2) = []
  /\ forall j, j ∈ observed_jobs (setup_jobs first_run_time w').2 <-> j ∈ observed_jobs w'.
Proof.
  intros Hd Hc Hl H.
  assert (Ht : config_truthy (desired w) = true).
  { unfold desired. rewrite Hc. by destruct l. }
  apply setup_jobs_any in H as [(Hm & Ha & _) Hret].
  destruct (Hret eq_refl Hd Ht) as [Hids _].
  assert (Hdes : desired_ids w' = desired_ids w)
    by (unfold desired_ids, desired; by rewrite Hm, Ha).
  destruct (setup_jobs first_run_time w') as [r2 w2] eqn:H2. cbn.
  apply setup_jobs_any in H2 as [(_ & _ & Hnew & Hkeep & Hadd & Hrem) _].
  rewrite Hdes in *.
  split_and!.
  - apply nil_of_no_elem. intros i Hi. apply Hadd in Hi as [Hi Hn]. by apply Hn, Hids.
  - apply nil_of_no_elem. intros i Hi. apply Hrem in Hi as [Hi Hn]. by apply Hn, Hids.
  - intros j. split.
    + intros Hj. apply Hnew in Hj as [Hj|[Hj Hn]]; [done|]. destruct Hn. by apply Hids.
    + intros Hj. apply Hkeep; [done|]. apply Hids. rewrite observed_ids_jobs.
      apply elem_of_map. eauto.
Qed.

(** X10: with [interval] present the loop body of [setup_jobs] never
    reads [schedule]: it does the same with that member deleted. *)
Theorem interval_takes_precedence (job_config : schedule) (jid : string) (a : value) :
  fields job_config !! "interval" = Some a ->
  add_configured first_run_time job_config jid
  = add_configured first_run_time
      {| addr := addr job_config; fields := delete "schedule" (fields job_config) |} jid.
Proof.
  intros Hi. unfold add_configured. cbn [fields].
  rewrite !lookup_delete_ne by done. by rewrite Hi.
Qed.

End ReconcilerFacts.

(** ** The handlers of the API *)

Lemma find_addr_fresh l s :
  (forall x, x ∈ l -> addr x ≠ addr s) ->
  List.find (fun x => addr x =? addr s) (l ++ [s]) = Some s.
Proof.
  induction l as [|y l IH]; intros H; cbn.
  - by rewrite Z.eqb_refl.
  - assert (Hy : (addr y =? addr s) = false) by (apply Z.eqb_neq, H, list_elem_of_here).
    rewrite Hy. apply IH. intros x Hx. by apply H, list_elem_of_further.
Qed.

Lemma find_addr_none l schedule_id :
  list_find (fun s => addr s = schedule_id) l = None ->
  List.find (fun s => addr s =? schedule_id) l = None.
Proof.
  intros H. induction l as [|y l IH]; [done|]. cbn in *.
  case_decide as Hy; [done|]. apply Z.eqb_neq in Hy. rewrite Hy. apply IH.
  by destruct (list_find _ l).
Qed.

Lemma list_find_delete_nodup l schedule_id i target :
  NoDup (map addr l) ->
  list_find (fun s => addr s = schedule_id) l = Some (i, target) ->
  list_find (fun s => addr s = schedule_id) (delete i l) = None.
Proof.
  revert i. induction l as [|y l IH]; intros i Hnd H; [done|].
  cbn in H. cbn in Hnd. apply NoDup_cons in Hnd as [Hny Hnd']. case_decide as Hy.
  - inversion H; subst i target. cbn.
    apply list_find_None, Forall_forall. intros x Hx Hax. apply Hny.
    apply elem_of_map. exists x. split; [congruence|done].
  - destruct (list_find _ l) as [[k t]|] eqn:Hf; [|done].
    cbn in H. inversion H; subst i target.
    change (delete (S k) (y :: l)) with (y :: delete k l).
    apply list_find_None. constructor; [done|].
    apply (proj1 (list_find_None _ _)). by apply IH.
Qed.

Lemma find_addr_some l schedule_id i target :
  list_find (fun s => addr s = schedule_id) l = Some (i, target) ->
  List.find (fun s => addr s =? schedule_id) l = Some target.
Proof.
  revert i. induction l as [|y l IH]; intros i H; [done|].
  cbn in H. cbn. case_decide as Hy.
  - inversion H; subst. by rewrite Z.eqb_refl.
  - destruct (list_find _ l) as [[j t]|] eqn:Hf; [|done].
    cbn in H. inversion H; subst i target.
    apply Z.eqb_neq in Hy. rewrite Hy. by eapply IH.
Qed.

Section APIExtra.
Variable first_run_time :
  BackgroundScheduler -> string -> gmap string value -> outcome (option Z).

(** A mutating handler from its persistence step on. *)
Lemma persist_and_reconcile_inv (resp : Response) w1 r w' :
  (save_config;; config_changed first_run_time;; mret resp) w1 = (Return r, w') ->
  r = resp
  /\ config_file_writable (manager w1) = true
  /\ setup_jobs first_run_time (saved w1) = (Return tt, w')
  /\ manager w' = manager (saved w1).
Proof.
  intros H. apply bind_inv in H as [([] & w2 & Hs & H)|(e & _ & He)]; [|discriminate He].
  apply bind_inv in H as [([] & w3 & Hc & H)|(e & _ & He)]; [|discriminate He].
  inversion H; subst r w3. clear H.
  assert (Hw : config_file_writable (manager w1) = true).
  { unfold save_config, mbind, M_bind, get_world in Hs.
    destruct (config_file_writable (manager w1)); [done|discriminate Hs]. }
  rewrite (save_config_writes _ Hw) in Hs. inversion Hs; subst w2.
  unfold config_changed in Hc. split_and!; try done.
  by apply setup_jobs_any in Hc as [(Hm & _) _].
Qed.

(** X11: the listing returns status 200 and one entry per configured
    schedule, in order, each with the fields of the schedule and its id;
    it returns the empty list when the key is absent or false, and leaves
    the state as it is. *)
Theorem list_schedules (request : Request) (w : World) :
  method request = GET ->
  schedules first_run_time request w
  = (Return {| body := {[ "schedules" := VList (map entry (enabled_list w)) ]};
               status := 200 |}, w).
Proof.
  intros Hm. unfold schedules, enabled_list. rewrite Hm.
  unfold mbind, M_bind, get_world. cbn.
  destruct (config_schedules (manager w)) as [c|]; [destruct (config_truthy c)|]; done.
Qed.

(** X12: with [schedules: no] the listing is empty, while
    [get_schedule], [update_schedule] and [delete_schedule] raise a
    [TypeError] and change nothing. *)
Theorem disabled_config_edges (request : Request) (schedule_id : Z) (w : World) :
  config_schedules (manager w) = Some Disabled ->
  (method request = GET ->
   schedules first_run_time request w
   = (Return {| body := {[ "schedules" := VList [] ]}; status := 200 |}, w))
  /\ get_schedule schedule_id w = (Raise (TypeError "'bool' object is not iterable"), w)
  /\ update_schedule first_run_time request schedule_id w
     = (Raise (TypeError "object of type 'bool' has no len()"), w)
  /\ delete_schedule first_run_time schedule_id w
     = (Raise (TypeError "object of type 'bool' has no len()"), w).
Proof.
  intros Hc. split_and!.
  - intros Hm. unfold schedules. rewrite Hm. unfold mbind, M_bind, get_world. cbn.
    by rewrite Hc.
  - unfold get_schedule, _schedule_by_id, mbind, M_bind, get_world. by rewrite Hc.
  - unfold update_schedule, schedules_for_len, mbind, M_bind, get_world. by rewrite Hc.
  - unfold delete_schedule, schedules_for_len, mbind, M_bind, get_world. by rewrite Hc.
Qed.

(** X13: a Create whose body has no [schedule] member raises
    [KeyError]; by then an absent or false [schedules] value has been
    replaced by the empty list, which is not written to the file. *)
Theorem create_without_body_resets_disabled (request : Request) (w : World) :
  method request = POST ->
  json_schedule request = None ->
  schedules first_run_time request w
  = (Raise (KeyError "schedule"), enabled w).
Proof.
  intros Hm Hj. unfold schedules, data_schedule. rewrite Hm, Hj.
  erewrite bind_return by reflexivity.
  erewrite (bind_return _ _ w tt (enabled w)); cycle 1.
  { unfold enabled. destruct (config_schedules (manager w)) as [c|];
      [destruct (config_truthy c)|]; reflexivity. }
  erewrite bind_return by (apply schedules_for_len_list, enabled_schedule_list).
  reflexivity.
Qed.

Lemma get_schedule_found schedule_id w l i target s :
  schedule_list w = Some l ->
  list_find (fun x => addr x = schedule_id) l = Some (i, target) ->
  scheduler w = Some s ->
  get_schedule schedule_id w
  = (Return (jsonify "schedule"
               (VDict match get_job s (unicode schedule_id) with
                      | Some job =>
                          <["next_run_time" := datetime_value (Job.next_run_time job)]>
                            (copy_with_id target schedule_id)
                      | None => copy_with_id target schedule_id
                      end)), w).
Proof.
  intros Hl Hfind Hs. unfold get_schedule.
  assert (Hcfg : config_schedules (manager w) = Some (Schedules l)).
  { unfold schedule_list in Hl. destruct (config_schedules (manager w)) as [[|l']|];
      inversion Hl; subst; [done|]. done. }
  erewrite bind_return by (by apply schedule_by_id_list).
  rewrite (find_addr_some _ _ _ _ Hfind). cbn [fmap option_fmap option_map truthy_opt].
  rewrite truthy_copy_with_id. cbn [negb].
  erewrite bind_return; [reflexivity|]. unfold get_scheduler. by rewrite Hs.
Qed.

(** X14: after a Create that returned, the new schedule is the last of
    the list in memory and in the file, the response carries its fields
    and id, and [get_schedule] with that id returns status 200 with the
    same id and fields. *)
Theorem create_then_get (request : Request) (schedule : schedule) (w w' : World)
    (r : Response) :
  method request = POST ->
  json_schedule request = Some schedule ->
  is_daemon (manager w) = true ->
  (forall s, s ∈ enabled_list w -> addr s ≠ addr schedule) ->
  schedules first_run_time request w = (Return r, w') ->
  r = {| body := {[ "schedule" := entry schedule ]}; status := 200 |}
  /\ config_schedules (manager w') = Some (Schedules (enabled_list w ++ [schedule]))
  /\ config_file (manager w') = Some (Schedules (enabled_list w ++ [schedule]))
  /\ exists d,
       get_schedule (addr schedule) w'
       = (Return {| body := {[ "schedule" := VDict d ]}; status := 200 |}, w')
       /\ d !! "id" = Some (VInt (addr schedule))
       /\ forall k, k ≠ "id" -> k ≠ "next_run_time" -> d !! k = fields schedule !! k.
Proof.
  intros Hm Hj Hd Hfresh H.
  destruct (create_steps first_run_time request schedule w Hm Hj) as (s' & Hfind & Heq).
  rewrite find_addr_fresh in Hfind by done. inversion Hfind; subst s'. clear Hfind.
  rewrite Heq in H. apply persist_and_reconcile_inv in H as (-> & Hw & Hsetup & Hman).
  assert (Hcfg : config_schedules (manager w') = Some (Schedules (enabled_list w ++ [schedule])))
    by (by rewrite Hman).
  split_and!; try done; [by rewrite Hman|].
  apply setup_jobs_any in Hsetup as [_ Hret].
  destruct (Hret eq_refl Hd) as [_ Hrun].
  { unfold desired. cbn. by destruct (enabled_list w). }
  unfold scheduler_running in Hrun.
  destruct (scheduler w') as [s|] eqn:Hs; [|discriminate Hrun].
  assert (Hfind : list_find (fun x => addr x = addr schedule) (enabled_list w ++ [schedule])
                  = Some (length (enabled_list w), schedule)).
  { apply list_find_Some. split_and!.
    - by rewrite lookup_app_r, Nat.sub_diag by done.
    - done.
    - intros k y Hy Hk. rewrite lookup_app_l in Hy by done.
      apply Hfresh. apply list_elem_of_lookup. eauto. }
  eexists. split; [|split].
  - eapply get_schedule_found; [|exact Hfind|exact Hs].
    unfold schedule_list. by rewrite Hcfg.
  - destruct (get_job s _); unfold copy_with_id;
      rewrite ?lookup_insert_ne by done; by rewrite lookup_insert_eq.
  - intros k Hk1 Hk2. destruct (get_job s _); unfold copy_with_id;
      by rewrite !lookup_insert_ne by done.
Qed.

(** X15: after a Delete that returned, the list in memory and in the file
    is the old one without the deleted position, one shorter, and with
    pairwise distinct objects [get_schedule] with the deleted id answers
    400. *)
Theorem delete_then_get (schedule_id : Z) (w w' : World) (r : Response)
    (l : list schedule) (i : nat) (target : schedule) :
  schedule_list w = Some l ->
  NoDup (map addr l) ->
  list_find (fun s => addr s = schedule_id) l = Some (i, target) ->
  delete_schedule first_run_time schedule_id w = (Return r, w') ->
  config_schedules (manager w') = Some (Schedules (delete i l))
  /\ config_file (manager w') = Some (Schedules (delete i l))
  /\ length (delete i l) = Nat.pred (length l)
  /\ get_schedule schedule_id w'
     = (Return {| body := {[ "error" := VStr "invalid schedule id" ]}; status := 400 |}, w').
Proof.
  intros Hl Hnd Hfind H.
  rewrite (delete_steps _ _ _ _ _ _ Hl Hfind) in H.
  apply persist_and_reconcile_inv in H as (-> & Hw & Hsetup & Hman).
  assert (Hcfg : config_schedules (manager w') = Some (Schedules (delete i l)))
    by (by rewrite Hman).
  split_and!; try done; [by rewrite Hman| |].
  - rewrite length_delete; [lia|]. apply list_find_Some in Hfind as (Hi & _). eauto.
  - unfold get_schedule.
    erewrite bind_return by (by apply schedule_by_id_list).
    rewrite find_addr_none by (by eapply list_find_delete_nodup). reflexivity.
Qed.

(** X16: for an id that no configured schedule has, [get_schedule] and
    [update_schedule] answer 400 with their error messages and change
    nothing. *)
Theorem not_found_answers_400 (request : Request) (schedule_id : Z) (w : World)
    (l : list schedule) :
  schedule_list w = Some l ->
  (forall s, s ∈ l -> addr s ≠ schedule_id) ->
  get_schedule schedule_id w
  = (Return {| body := {[ "error" := VStr "invalid schedule id" ]}; status := 400 |}, w)
  /\ update_schedule first_run_time request schedule_id w
     = (Return {| body := {[ "error" := VStr "Invalid id" ]}; status := 400 |}, w).
Proof.
  intros Hl Hno.
  assert (Hfind : list_find (fun s => addr s = schedule_id) l = None).
  { apply list_find_None, Forall_forall. intros x Hx. by apply Hno. }
  split.
  - unfold get_schedule, _schedule_by_id, mbind, M_bind, get_world.
    unfold schedule_list in Hl.
    destruct (config_schedules (manager w)) as [[|l']|]; inversion Hl; subst; [|done].
    by rewrite find_addr_none.
  - unfold update_schedule.
    erewrite bind_return by (by apply schedules_for_len_list). by rewrite Hfind.
Qed.

(** X17: before the daemon has set up its scheduler, [get_schedule] of a
    configured schedule raises [AttributeError]: the module's scheduler is
    still [None]. *)
Theorem get_schedule_needs_scheduler (schedule_id : Z) (w : World)
    (l : list schedule) (i : nat) (target : schedule) :
  schedule_list w = Some l ->
  list_find (fun s => addr s = schedule_id) l = Some (i, target) ->
  scheduler w = None ->
  get_schedule schedule_id w
  = (Raise (AttributeError "'NoneType' object has no attribute"), w).
Proof.
  intros Hl Hfind Hs. unfold get_schedule.
  assert (Hcfg : config_schedules (manager w) = Some (Schedules l)).
  { unfold schedule_list in Hl. destruct (config_schedules (manager w)) as [[|l']|];
      inversion Hl; subst; [done|]. done. }
  erewrite bind_return by (by apply schedule_by_id_list).
  rewrite (find_addr_some _ _ _ _ Hfind). cbn [fmap option_fmap option_map truthy_opt].
  rewrite truthy_copy_with_id. cbn [negb].
  erewrite bind_raise; [reflexivity|]. unfold get_scheduler. by rewrite Hs.
Qed.

End APIExtra.

(** ** Shutdown, set-up and update *)

Lemma add_missing_skip first_run_time existing pre rest acc w :
  (forall c, c ∈ pre -> unicode (addr c) ∈ existing) ->
  add_missing first_run_time existing (pre ++ rest) acc w
  = add_missing first_run_time existing rest (acc ++ job_ids pre) w.
Proof.
  revert acc. induction pre as [|c pre IH]; intros acc Hin; cbn.
  - by rewrite app_nil_r.
  - unfold mbind, M_bind.
    rewrite bool_decide_eq_true_2 by (apply Hin; left).
    cbn. rewrite IH by (intros s Hs; apply Hin; by right).
    by rewrite <- app_assoc.
Qed.

Section MoreFacts.
Variable first_run_time :
  BackgroundScheduler -> string -> gmap string value -> outcome (option Z).


(** X19: [setup_jobs] does nothing when the manager is not a daemon; on a
    daemon whose scheduler has not been set up it raises [AttributeError]
    without a call on the scheduler. *)
Theorem setup_jobs_guards (w : World) :
  (is_daemon (manager w) = false -> setup_jobs first_run_time w = (Return tt, w))
  /\ (is_daemon (manager w) = true -> scheduler w = None ->
      exists w',
        setup_jobs first_run_time w
        = (Raise (AttributeError "'NoneType' object has no attribute"), w')
        /\ calls w' = calls w /\ manager w' = manager w /\ scheduler w' = None).
Proof.
  unfold setup_jobs, mbind, M_bind, get_world, get_scheduler. split.
  - intros ->. reflexivity.
  - intros -> Hs. cbn.
    destruct w as [m sch lg cs al]. cbn in *. subst sch.
    destruct (config_schedules m) as [c|]; cbn.
    + destruct (config_truthy c); cbn; eexists; split_and!; reflexivity.
    + eexists; split_and!; reflexivity.
Qed.

(** X20: when the local zone has a name other than [local],
    [setup_scheduler] logs nothing, constructs the stopped scheduler over
    the manager's job store with that zone and continues as [setup_jobs];
    the scheduler has that zone afterwards. *)
Theorem setup_scheduler_named_zone (tz : tzinfo) (w : World) :
  zone tz ≠ "local" ->
  setup_scheduler first_run_time (Return tz) w
  = setup_jobs first_run_time
      (with_scheduler w
         (Some {| timezone := tz; coalesce := true; misfire_grace_time := 86400;
                  jobs := engine (manager w); running := false |}))
  /\ scheduler_timezone (setup_scheduler first_run_time (Return tz) w).2 = Some tz.
Proof.
  intros Hz.
  assert (Heq : setup_scheduler first_run_time (Return tz) w
    = setup_jobs first_run_time
        (with_scheduler w
           (Some {| timezone := tz; coalesce := true; misfire_grace_time := 86400;
                    jobs := engine (manager w); running := false |}))).
  { unfold setup_scheduler, resolve_timezone.
    apply String.eqb_neq in Hz. rewrite Hz. reflexivity. }
  split; [done|]. rewrite Heq, keeps_setup_jobs. reflexivity.
Qed.

(** X21: an exception of [tzlocal.get_localzone] other than
    [UnknownTimeZoneError] and [struct.error] leaves [setup_scheduler]
    unhandled, and no scheduler is constructed. *)
Theorem setup_scheduler_propagates (e : exn) (w : World) :
  e ≠ UnknownTimeZoneError ->
  (forall msg, e ≠ StructError msg) ->
  setup_scheduler first_run_time (Raise e) w = (Raise e, w).
Proof.
  intros H1 H2. unfold setup_scheduler, resolve_timezone.
  destruct e; try reflexivity; [done|by destruct (H2 msg)].
Qed.

(** X22: an Update or Replace that returned changes the schedule in
    place, so its id stays: the job of that id is kept as it was, and
    neither [add_job] nor [remove_job] is called for it. *)
Theorem update_keeps_existing_job (request : Request) (schedule_id : Z) (w w' : World)
    (r : Response) (l : list schedule) (i : nat) (target new_schedule : schedule)
    (j : Job.t) :
  schedule_list w = Some l ->
  list_find (fun s => addr s = schedule_id) l = Some (i, target) ->
  json_schedule request = Some new_schedule ->
  update_schedule first_run_time request schedule_id w = (Return r, w') ->
  j ∈ observed_jobs w ->
  Job.id j = unicode schedule_id ->
  j ∈ observed_jobs w'
  /\ (unicode schedule_id ∉ added_ids (new_calls w w'))
  /\ (unicode schedule_id ∉ removed_ids (new_calls w w'))
  /\ config_schedules (manager w')
     = Some (Schedules (<[i := updated (method request) target new_schedule]> l)).
Proof.
  intros Hl Hfind Hj H Hin Hid.
  rewrite (update_steps _ _ _ _ _ _ _ _ Hl Hfind Hj) in H.
  apply persist_and_reconcile_inv in H as (-> & Hw & Hsetup & Hman).
  set (w1 := with_schedules w (<[i := updated (method request) target new_schedule]> l)) in *.
  apply setup_jobs_any in Hsetup as [(_ & _ & _ & Hkeep & Hadd & Hrem) _].
  assert (Hdes : unicode schedule_id ∈ desired_ids (saved w1)).
  { unfold desired_ids, desired. cbn. apply elem_of_map.
    exists (updated (method request) target new_schedule). split.
    - cbn. by rewrite (list_find_addr _ _ _ _ Hfind).
    - apply list_elem_of_lookup. exists i. apply list_lookup_insert_eq.
      apply list_find_Some in Hfind as (Hi & _). by eapply lookup_lt_Some. }
  assert (Hobs : unicode schedule_id ∈ observed_ids w).
  { rewrite observed_ids_jobs. apply elem_of_map. eauto. }
  split_and!.
  - apply Hkeep; [exact Hin|]. by rewrite Hid.
  - intros Ha. apply Hadd in Ha as [_ Hn]. by apply Hn.
  - intros Hr. apply Hrem in Hr as [_ Hn]. by apply Hn.
  - by rewrite Hman.
Qed.

(** X23: sending the listed entry of a schedule (its fields and its id)
    back, as Update or as Replace, stores the list as it was. *)
Theorem replace_with_listed_entry (m : http_method) (a schedule_id : Z) (w : World)
    (l : list schedule) (i : nat) (target : schedule) :
  schedule_list w = Some l ->
  list_find (fun s => addr s = schedule_id) l = Some (i, target) ->
  fields target !! "id" = None ->
  update_schedule first_run_time
    {| method := m;
       json_schedule := Some {| addr := a; fields := copy_with_id target schedule_id |} |}
    schedule_id w
  = (save_config;; config_changed first_run_time;;
     mret (jsonify "schedule" (VDict (copy_with_id target schedule_id))))
      (with_schedules w l).
Proof.
  intros Hl Hfind Hid.
  rewrite (update_steps first_run_time
             {| method := m;
                json_schedule :=
                  Some {| addr := a; fields := copy_with_id target schedule_id |} |}
             schedule_id w l i target
             {| addr := a; fields := copy_with_id target schedule_id |} Hl Hfind eq_refl).
  assert (Hsame : updated m target {| addr := a; fields := copy_with_id target schedule_id |}
                  = target).
  { unfold updated, copy_with_id. cbn. rewrite delete_insert_id by done.
    destruct target as [ta tf]. cbn. f_equal.
    destruct m; rewrite ?(right_id_L ∅ (∪)); try done; apply map_eq; intros k;
      rewrite lookup_union; by destruct (tf !! k). }
  cbn [method]. rewrite Hsame.
  rewrite list_insert_id; [done|]. by apply list_find_Some in Hfind as (? & _).
Qed.

Lemma updated_lookup (m : http_method) (target new_schedule : schedule) (k : string) :
  fields (updated m target new_schedule) !! k
  = if decide (k = "id") then
      match m with POST => None | _ => fields target !! "id" end
    else
      match fields new_schedule !! k with
      | Some v => Some v
      | None => match m with POST => None | _ => fields target !! k end
      end.
Proof.
  unfold updated. cbn. rewrite lookup_union.
  case_decide as Hk.
  - subst k. rewrite lookup_delete_eq. destruct m; rewrite ?lookup_empty; cbn;
      try done; by destruct (fields target !! "id").
  - rewrite lookup_delete_ne by done.
    destruct (fields new_schedule !! k) as [v|]; cbn.
    + destruct m; rewrite ?lookup_empty; try done;
        by destruct (fields target !! k).
    + destruct m; rewrite ?lookup_empty; try done;
        by destruct (fields target !! k).
Qed.

(** X24: after an Update or Replace that returned, the schedule at the
    position has the same id; a key of the request other than [id] has the
    request's value, a key the request lacks keeps the old value on an
    Update and is gone on a Replace, and an [id] member of the request is
    dropped; the other positions are as before. *)
Theorem update_merges_or_replaces (request : Request) (schedule_id : Z) (w w' : World)
    (r : Response) (l : list schedule) (i : nat) (target new_schedule : schedule) :
  schedule_list w = Some l ->
  list_find (fun s => addr s = schedule_id) l = Some (i, target) ->
  json_schedule request = Some new_schedule ->
  update_schedule first_run_time request schedule_id w = (Return r, w') ->
  exists t',
    config_schedules (manager w') = Some (Schedules (<[i := t']> l))
    /\ config_file (manager w') = Some (Schedules (<[i := t']> l))
    /\ addr t' = schedule_id
    /\ (forall k,
          fields t' !! k
          = if decide (k = "id") then
              match method request with POST => None | _ => fields target !! "id" end
            else
              match fields new_schedule !! k with
              | Some v => Some v
              | None =>
                  match method request with POST => None | _ => fields target !! k end
              end)
    /\ r = {| body := {[ "schedule" := VDict (<["id" := VInt schedule_id]> (fields t')) ]};
              status := 200 |}.
Proof.
  intros Hl Hfind Hj H.
  rewrite (update_steps _ _ _ _ _ _ _ _ Hl Hfind Hj) in H.
  apply persist_and_reconcile_inv in H as (-> & Hw & Hsetup & Hman).
  exists (updated (method request) target new_schedule).
  split_and!; try (by rewrite Hman); try done.
  - cbn. by eapply list_find_addr.
  - intros k. apply updated_lookup.
Qed.

(** X25: the answers with status 500 are never given: every response of
    [schedules] has status 200 and every response of [update_schedule] has
    status 200 or 400. *)
Theorem missing_schedule_answers_unreachable (request : Request) (schedule_id : Z)
    (w w' : World) (r : Response) :
  (schedules first_run_time request w = (Return r, w') -> status r = 200)
  /\ (update_schedule first_run_time request schedule_id w = (Return r, w') ->
      status r = 200 \/ status r = 400).
Proof.
  split.
  - destruct (method request) eqn:Hm.
    + unfold schedules. rewrite Hm. unfold mbind, M_bind, get_world. cbn.
      destruct (config_schedules (manager w)) as [c|]; [destruct (config_truthy c)|];
        intros H; by inversion H.
    + destruct (json_schedule request) as [schedule|] eqn:Hj.
      * destruct (create_steps first_run_time request schedule w Hm Hj) as (s' & _ & ->).
        intros H. by apply persist_and_reconcile_inv in H as (-> & _).
      * unfold schedules, data_schedule. rewrite Hm, Hj.
        erewrite bind_return by reflexivity.
        erewrite (bind_return _ _ w tt (enabled w)); cycle 1.
        { unfold enabled. destruct (config_schedules (manager w)) as [c|];
            [destruct (config_truthy c)|]; reflexivity. }
        erewrite bind_return by (apply schedules_for_len_list, enabled_schedule_list).
        intros H. discriminate H.
    + unfold schedules. rewrite Hm. intros H. discriminate H.
    + unfold schedules. rewrite Hm. intros H. discriminate H.
  - destruct (schedule_list w) as [l|] eqn:Hl.
    + destruct (list_find (fun s => addr s = schedule_id) l) as [[i target]|] eqn:Hfind.
      * destruct (json_schedule request) as [new_schedule|] eqn:Hj.
        -- rewrite (update_steps _ _ _ _ _ _ _ _ Hl Hfind Hj). intros H.
           apply persist_and_reconcile_inv in H as (-> & _). by left.
        -- unfold update_schedule, data_schedule.
           erewrite bind_return by (by apply schedules_for_len_list).
           rewrite Hfind, Hj. intros H. discriminate H.
      * unfold update_schedule.
        erewrite bind_return by (by apply schedules_for_len_list).
        rewrite Hfind. intros H. inversion H. by right.
    + unfold update_schedule, schedules_for_len, mbind, M_bind, get_world.
      unfold schedule_list in Hl.
      destruct (config_schedules (manager w)) as [[|l']|]; try discriminate Hl.
      intros H. discriminate H.
Qed.

(** The first configured schedule that has no job makes [setup_jobs] raise
    what its loop body raises, before any call on the scheduler. *)
Lemma setup_jobs_raises_at (w : World) (s : BackgroundScheduler)
    (pre post : list schedule) (c : schedule) (e : exn) :
  is_daemon (manager w) = true ->
  config_schedules (manager w) = Some (Schedules (pre ++ c :: post)) ->
  scheduler w = Some s ->
  (forall x, x ∈ pre -> unicode (addr x) ∈ observed_ids w) ->
  unicode (addr c) ∉ observed_ids w ->
  add_configured first_run_time c (unicode (addr c)) w = (Raise e, w) ->
  setup_jobs first_run_time w = (Raise e, w).
Proof.
  intros Hd Hc Hs Hpre Hnew He. unfold setup_jobs.
  erewrite bind_return by reflexivity. rewrite Hd. cbn [negb].
  rewrite Hc. erewrite bind_return by reflexivity.
  cbv zeta. cbn [default from_option id].
  assert (Ht : config_truthy (Schedules (pre ++ c :: post)) = true)
    by (by destruct pre).
  rewrite Ht. cbn [negb items].
  erewrite bind_return by (unfold get_scheduler; by rewrite Hs).
  assert (Hex : map Job.id (jobs s) = observed_ids w)
    by (unfold observed_ids; by rewrite Hs).
  rewrite Hex. apply bind_raise.
  rewrite add_missing_skip by done. cbn [add_missing].
  apply bind_raise. by rewrite bool_decide_eq_false_2.
Qed.

Lemma add_configured_no_trigger (c : schedule) (jid : string) (w : World) :
  fields c !! "interval" = None -> fields c !! "schedule" = None ->
  add_configured first_run_time c jid w = (Raise (KeyError "schedule"), w).
Proof. intros Hi Hsch. unfold add_configured. by rewrite Hi, Hsch. Qed.

(** X26: when the first configured schedule without a job has neither
    [interval] nor [schedule], [setup_jobs] raises [KeyError] for
    [schedule]; when it has a trigger and no [tasks], [KeyError] for
    [tasks]; in both cases the state is unchanged. *)
Theorem reconcile_raises_on_missing_keys (w : World) (s : BackgroundScheduler)
    (pre post : list schedule) (c : schedule) :
  is_daemon (manager w) = true ->
  config_schedules (manager w) = Some (Schedules (pre ++ c :: post)) ->
  scheduler w = Some s ->
  (forall x, x ∈ pre -> unicode (addr x) ∈ observed_ids w) ->
  unicode (addr c) ∉ observed_ids w ->
  (fields c !! "interval" = None -> fields c !! "schedule" = None ->
   setup_jobs first_run_time w = (Raise (KeyError "schedule"), w))
  /\ (has_key "interval" (fields c) || has_key "schedule" (fields c) = true ->
      fields c !! "tasks" = None ->
      setup_jobs first_run_time w = (Raise (KeyError "tasks"), w)).
Proof.
  intros Hd Hc Hs Hpre Hnew. split.
  - intros Hi Hsch. eapply setup_jobs_raises_at; try done.
    by apply add_configured_no_trigger.
  - intros Hany Ht. eapply setup_jobs_raises_at; try done.
    unfold add_configured, has_key in *. rewrite Ht.
    destruct (fields c !! "interval") as [x|] eqn:Hi; [done|].
    destruct (fields c !! "schedule") as [x|] eqn:Hsch; [done|].
    apply not_elem_of_dom in Hi, Hsch.
    by rewrite !bool_decide_eq_false_2 in Hany.
Qed.

(** X27: a Create of a schedule with neither [interval] nor [schedule]
    is appended and written to the file, and then the reconciliation
    raises [KeyError]: no response is given and the stored schedule stays. *)
Theorem create_without_trigger_persists_then_raises (request : Request)
    (schedule : schedule) (w : World) (s : BackgroundScheduler) :
  method request = POST ->
  json_schedule request = Some schedule ->
  fields schedule !! "interval" = None ->
  fields schedule !! "schedule" = None ->
  config_file_writable (manager w) = true ->
  is_daemon (manager w) = true ->
  scheduler w = Some s ->
  (forall x, x ∈ enabled_list w -> unicode (addr x) ∈ observed_ids w) ->
  unicode (addr schedule) ∉ observed_ids w ->
  schedules first_run_time request w
  = (Raise (KeyError "schedule"),
     saved (with_schedules w (enabled_list w ++ [schedule]))).
Proof.
  intros Hm Hj Hi Hsch Hw Hd Hs Hpre Hnew.
  destruct (create_steps first_run_time request schedule w Hm Hj) as (s' & _ & ->).
  erewrite bind_return by (by apply save_config_writes).
  apply bind_raise. unfold config_changed.
  eapply (setup_jobs_raises_at _ s (enabled_list w) [] schedule); try done.
  by apply add_configured_no_trigger.
Qed.

End MoreFacts.

(** ** Create while scheduling is disabled *)

Lemma remove_job_returns jid w s :
  scheduler w = Some s ->
  jid ∈ map Job.id (jobs s) ->
  exists w',
    remove_job jid w = (Return tt, w')
    /\ scheduler w'
       = Some (set_jobs s (List.filter (fun j => negb (String.eqb (Job.id j) jid)) (jobs s))).
Proof.
  intros Hs Hin. unfold remove_job, mbind, M_bind, record, get_scheduler. cbn.
  rewrite Hs, bool_decide_eq_true_2 by done. eexists. split; reflexivity.
Qed.

(** The second loop returns when the ids it walks are those of distinct
    jobs of the store. *)
Lemma remove_stale_returns existing configured w s :
  scheduler w = Some s ->
  NoDup existing ->
  (forall i, i ∈ existing -> i ∈ map Job.id (jobs s)) ->
  exists w', remove_stale existing configured w = (Return tt, w').
Proof.
  revert w s. induction existing as [|jid rest IH]; intros w s Hs Hnd Hin; cbn.
  - by exists w.
  - apply NoDup_cons in Hnd as [Hnot Hnd]. case_bool_decide as Hc.
    + erewrite bind_return by reflexivity.
      apply (IH w s Hs Hnd). intros i Hi. by apply Hin, list_elem_of_further.
    + destruct (remove_job_returns jid w s Hs) as (w1 & Hrm & Hs1);
        [apply Hin, list_elem_of_here|].
      erewrite bind_return by exact Hrm.
      apply (IH w1 _ Hs1 Hnd). intros i Hi. cbn.
      assert (Hi' : i ∈ map Job.id (jobs s)) by (by apply Hin, list_elem_of_further).
      apply elem_of_map in Hi' as (j & -> & Hj). apply elem_of_map. exists j.
      split; [done|]. apply elem_of_filter_bool. split; [done|].
      apply negb_true_iff, String.eqb_neq. intros Heq. apply Hnot. by rewrite <- Heq.
Qed.

Lemma start_if_stopped_returns w s :
  scheduler w = Some s ->
  exists w',
    (s ← get_scheduler;
     if negb (running s) then log_msg INFO "Starting scheduler";; start else mret tt) w
    = (Return tt, w').
Proof.
  intros Hs. unfold mbind, M_bind, get_scheduler, start, record, log_msg.
  destruct w as [m sch lg cs al]. cbn in *. subst sch.
  destruct (running s); cbn; eexists; reflexivity.
Qed.

Section CreateFacts.
Variable CronTrigger : gmap string value -> option exn.
Variable first_run_time :
  BackgroundScheduler -> string -> gmap string value -> outcome (option Z).

Lemma add_job_returns tasks jid name trigger kw w s nrt :
  scheduler w = Some s ->
  first_run_time s trigger kw = Return nrt ->
  jid ∉ map Job.id (jobs s) ->
  add_job first_run_time tasks jid name trigger kw w
  = (Return tt,
     {| manager := manager w;
        scheduler := Some (set_jobs s (jobs s ++ [Job.mk jid name tasks trigger kw nrt]));
        log := log w; calls := calls w ++ [Add_job tasks jid name trigger kw];
        alloc := alloc w |}).
Proof.
  intros Hs Hf Hn. unfold add_job, mbind, M_bind, record, get_scheduler, set_scheduler.
  cbn. rewrite Hs, Hf, bool_decide_eq_false_2 by done. reflexivity.
Qed.

(** The reconciliation of a daemon whose list is one valid schedule that
    has no job: it returns, the schedule's job is the one job left, and
    every job that was in the store is deregistered. *)
Lemma setup_jobs_single (w : World) (s : BackgroundScheduler) (schedule : schedule) :
  is_daemon (manager w) = true ->
  config_schedules (manager w) = Some (Schedules [schedule]) ->
  scheduler w = Some s ->
  validate CronTrigger item_schema (VDict (fields schedule)) = true ->
  (forall trigger kw,
     trigger_of schedule = Some (trigger, VDict kw) ->
     exists nrt, first_run_time s trigger kw = Return nrt) ->
  NoDup (observed_ids w) ->
  unicode (addr schedule) ∉ observed_ids w ->
  exists w' job,
    setup_jobs first_run_time w = (Return tt, w')
    /\ added_ids (new_calls w w') = [unicode (addr schedule)]
    /\ (forall jid, jid ∈ removed_ids (new_calls w w') <-> jid ∈ observed_ids w)
    /\ (forall j, j ∈ observed_jobs w' <-> j = job)
    /\ Job.id job = unicode (addr schedule)
    /\ trigger_of schedule = Some (Job.trigger job, VDict (Job.trigger_args job)).
Proof.
  intros Hd Hc Hs Hv Hf Hnd Hnew.
  set (jid := unicode (addr schedule)) in *.
  assert (Hex : map Job.id (jobs s) = observed_ids w)
    by (unfold observed_ids; by rewrite Hs).
  destruct (add_configured_valid CronTrigger first_run_time schedule jid Hv)
    as (tasks & names & trigger & kw & Hadd & _ & _ & _ & Hof).
  destruct (Hf trigger kw Hof) as [nrt Hnrt].
  set (job := Job.mk jid (String.concat "," names) tasks trigger kw nrt).
  set (w2 := {| manager := manager w;
                scheduler := Some (set_jobs s (jobs s ++ [job]));
                log := log w;
                calls := calls w ++ [Add_job tasks jid (String.concat "," names) trigger kw];
                alloc := alloc w |}).
  assert (Hmiss : add_missing first_run_time (observed_ids w) [schedule] [] w
                  = (Return [jid], w2)).
  { cbn [add_missing]. fold jid. rewrite bool_decide_eq_false_2 by done.
    erewrite bind_return; [reflexivity|].
    rewrite Hadd. apply add_job_returns; [done|done|by rewrite Hex]. }
  destruct (remove_stale_returns (observed_ids w) [jid] w2 _ eq_refl Hnd) as [w3 Hrm].
  { intros i Hi. cbn. rewrite map_app. apply elem_of_app. left. by rewrite Hex. }
  assert (Hs3 : exists s3, scheduler w3 = Some s3).
  { apply remove_stale_any in Hrm as (gone & (_ & _ & Hr & _) & _).
    unfold scheduler_running in Hr. cbn in Hr.
    destruct (scheduler w3) as [s3|]; [eauto|discriminate Hr]. }
  destruct Hs3 as [s3 Hs3].
  destruct (start_if_stopped_returns w3 s3 Hs3) as [w' Hst].
  assert (Hrun : setup_jobs first_run_time w = (Return tt, w')).
  { unfold setup_jobs. erewrite bind_return by reflexivity. rewrite Hd. cbn [negb].
    rewrite Hc. erewrite bind_return by reflexivity.
    cbv zeta. cbn [default from_option id config_truthy negb items].
    erewrite bind_return by (unfold get_scheduler; by rewrite Hs).
    rewrite Hex. erewrite bind_return by exact Hmiss.
    erewrite bind_return by exact Hrm. exact Hst. }
  exists w', job. split; [exact Hrun|].
  apply remove_stale_any in Hrm as (gone & Hp & Hgone). specialize (Hgone eq_refl).
  destruct Hp as (_ & _ & _ & Ho3 & He3 & cs3 & Hc3 & Hadd3 & Hrem3).
  apply start_if_stopped_any in Hst as ((_ & _ & Ho4 & cs4 & Hc4 & Hadd4 & Hrem4) & _).
  assert (Hcalls : calls w'
    = calls w ++ ([Add_job tasks jid (String.concat "," names) trigger kw] ++ cs3 ++ cs4)).
  { rewrite Hc4, Hc3. cbn [calls w2]. by rewrite <- !app_assoc. }
  assert (Hgone' : forall i, i ∈ gone <-> i ∈ observed_ids w).
  { intros i. split.
    - intros Hi. by apply He3 in Hi as [Hi _].
    - intros Hi. apply Hgone; [done|]. intros Hin.
      apply list_elem_of_singleton in Hin. by subst i. }
  rewrite (new_calls_app_eq _ _ _ Hcalls).
  rewrite !added_ids_app, !removed_ids_app, Hadd3, Hadd4, Hrem3, Hrem4.
  cbn [added_ids removed_ids flat_map app]. rewrite app_nil_r.
  split_and!; try done.
  intros j. rewrite Ho4, Ho3. unfold observed_jobs at 1. cbn [scheduler w2 set_jobs jobs].
  rewrite elem_of_app, list_elem_of_singleton, Hgone'. split.
  - intros [[Hj| ->] Hn]; [|done]. destruct Hn. rewrite <- Hex. apply elem_of_map. eauto.
  - intros ->. split; [by right|done].
Qed.

(** C9: with the [schedules] key absent or false, Create makes the list a
    new empty list and appends the config, so the in-memory list is the new
    config alone, and once it is written the reconciliation runs on that
    list.  Whenever Create returns on a daemon, scheduling is enabled: the
    list in memory and in the file is the new config alone, the scheduler
    runs, the jobs in the store are those of the new config, and no other
    job was registered.  For a valid config of a new object, with a
    writable file and distinct jobs in the store, Create does return: it
    registers the job of the config with its trigger, deregisters every
    job that was in the store, and starts the scheduler. *)
Theorem create_enables_scheduling (request : Request) (schedule : schedule) (w : World) :
  method request = POST ->
  json_schedule request = Some schedule ->
  config_schedules (manager w) = None \/ config_schedules (manager w) = Some Disabled ->
  schedules first_run_time request w
  = (save_config;; config_changed first_run_time;;
     mret (jsonify "schedule" (VDict (copy_with_id schedule (addr schedule)))))
      (with_schedules w [schedule])
  /\ (config_file_writable (manager w) = true ->
      schedules first_run_time request w
      = (setup_jobs first_run_time;;
         mret (jsonify "schedule" (VDict (copy_with_id schedule (addr schedule)))))
          (saved (with_schedules w [schedule]))
      /\ desired (saved (with_schedules w [schedule])) = Schedules [schedule])
  /\ (forall r w',
        is_daemon (manager w) = true ->
        schedules first_run_time request w = (Return r, w') ->
        r = jsonify "schedule" (VDict (copy_with_id schedule (addr schedule)))
        /\ config_schedules (manager w') = Some (Schedules [schedule])
        /\ config_file (manager w') = Some (Schedules [schedule])
        /\ scheduler_running w' = Some true
        /\ (forall jid, jid ∈ observed_ids w' <-> jid = unicode (addr schedule))
        /\ (forall jid, jid ∈ added_ids (new_calls w w') ->
              jid = unicode (addr schedule) /\ jid ∉ observed_ids w)
        /\ (forall jid, jid ∈ removed_ids (new_calls w w') ->
              jid ∈ observed_ids w /\ jid ≠ unicode (addr schedule)))
  /\ (forall s,
        config_file_writable (manager w) = true ->
        is_daemon (manager w) = true ->
        scheduler w = Some s ->
        validate CronTrigger item_schema (VDict (fields schedule)) = true ->
        (forall trigger kw,
           trigger_of schedule = Some (trigger, VDict kw) ->
           exists nrt, first_run_time s trigger kw = Return nrt) ->
        NoDup (observed_ids w) ->
        unicode (addr schedule) ∉ observed_ids w ->
        exists w' job,
          schedules first_run_time request w
          = (Return (jsonify "schedule" (VDict (copy_with_id schedule (addr schedule)))),
             w')
          /\ added_ids (new_calls w w') = [unicode (addr schedule)]
          /\ (forall jid, jid ∈ removed_ids (new_calls w w') <-> jid ∈ observed_ids w)
          /\ (forall j, j ∈ observed_jobs w' <-> j = job)
          /\ Job.id job = unicode (addr schedule)
          /\ trigger_of schedule = Some (Job.trigger job, VDict (Job.trigger_args job))
          /\ scheduler_running w' = Some true).
Proof.
  intros Hm Hj Hc.
  destruct (create_steps first_run_time request schedule w Hm Hj) as (s' & Hfind & Heq).
  assert (Hl : enabled_list w = []).
  { unfold enabled_list. by destruct Hc as [-> | ->]. }
  rewrite Hl in *. cbn in Hfind. rewrite Z.eqb_refl in Hfind.
  inversion Hfind; subst s'. cbn [app] in Heq. clear Hfind.
  set (w1 := saved (with_schedules w [schedule])).
  assert (Hstep : config_file_writable (manager w) = true ->
    schedules first_run_time request w
    = (setup_jobs first_run_time;;
       mret (jsonify "schedule" (VDict (copy_with_id schedule (addr schedule))))) w1).
  { intros Hw. rewrite Heq.
    by erewrite bind_return by (by apply save_config_writes). }
  assert (Heffect : forall r w',
    is_daemon (manager w) = true ->
    schedules first_run_time request w = (Return r, w') ->
    r = jsonify "schedule" (VDict (copy_with_id schedule (addr schedule)))
    /\ manager w' = manager w1
    /\ scheduler_running w' = Some true
    /\ (forall jid, jid ∈ observed_ids w' <-> jid = unicode (addr schedule))
    /\ (forall jid, jid ∈ added_ids (new_calls w w') ->
          jid = unicode (addr schedule) /\ jid ∉ observed_ids w)
    /\ (forall jid, jid ∈ removed_ids (new_calls w w') ->
          jid ∈ observed_ids w /\ jid ≠ unicode (addr schedule))).
  { intros r w' Hd H. rewrite Heq in H.
    apply persist_and_reconcile_inv in H as (-> & Hw & Hsetup & Hman).
    fold w1 in Hsetup, Hman.
    apply setup_jobs_any in Hsetup as [(_ & _ & _ & _ & Hadd & Hrem) Hret].
    destruct (Hret eq_refl Hd eq_refl) as [Hids Hrun].
    change (new_calls w1 w') with (new_calls w w') in *.
    change (observed_ids w1) with (observed_ids w) in *.
    change (desired_ids w1) with [unicode (addr schedule)] in *.
    split_and!; try done.
    - intros jid. by rewrite Hids, list_elem_of_singleton.
    - intros jid Hin. apply Hadd in Hin as [Hin Hn].
      by apply list_elem_of_singleton in Hin.
    - intros jid Hin. apply Hrem in Hin as [Hin Hn]. split; [done|].
      intros ->. apply Hn, list_elem_of_here. }
  split; [done|]. split; [by intros Hw; split; [apply Hstep|]|]. split.
  - intros r w' Hd H. destruct (Heffect r w' Hd H) as (-> & Hman & Hrun & Hids & Ha & Hr).
    split_and!; try done; by rewrite Hman.
  - intros s Hw Hd Hs Hv Hf Hnd Hnew.
    destruct (setup_jobs_single w1 s schedule Hd eq_refl Hs Hv Hf Hnd Hnew)
      as (w' & job & Hrun & Hadd & Hrem & Hjobs & Hid & Hof).
    assert (Hret : schedules first_run_time request w
      = (Return (jsonify "schedule" (VDict (copy_with_id schedule (addr schedule)))), w')).
    { rewrite (Hstep Hw). by erewrite bind_return by exact Hrun. }
    exists w', job. split_and!; try done.
    by destruct (Heffect _ _ Hd Hret) as (_ & _ & ? & _).
Qed.

End CreateFacts.

(** ** The properties at concrete states *)

Lemma valid_schedule_reaches_add_job_witness :
  exists tasks names trigger kw,
    add_configured pending_first_run (tv_at 100) "100"
    = add_job pending_first_run tasks "100" (String.concat "," names) trigger kw
    /\ map VStr names = tasks
    /\ (fields (tv_at 100) !! "tasks" = Some (VList tasks)
        \/ exists s, fields (tv_at 100) !! "tasks" = Some (VStr s) /\ tasks = [VStr s])
    /\ (trigger = "interval" /\ fields (tv_at 100) !! "interval" = Some (VDict kw)
        \/ trigger = "cron" /\ fields (tv_at 100) !! "schedule" = Some (VDict kw)).
Proof.
  apply (valid_schedule_reaches_add_job lenient_cron pending_first_run (tv_at 100) "100").
  vm_compute. reflexivity.
Defined.

Lemma reconcile_converges_witness :
  (forall jid, jid ∈ observed_ids (setup_jobs pending_first_run stale_world).2
               <-> jid ∈ desired_ids stale_world)
  /\ scheduler_running (setup_jobs pending_first_run stale_world).2 = Some true
  /\ manager (setup_jobs pending_first_run stale_world).2 = manager stale_world.
Proof.
  apply (reconcile_converges pending_first_run stale_world); [reflexivity|reflexivity|].
  vm_compute. reflexivity.
Defined.

Lemma reconcile_keeps_configured_jobs_witness :
  hourly_job "100" "tv" (Some 1700000000)
  ∈ observed_jobs (setup_jobs pending_first_run synced_world).2.
Proof.
  apply (reconcile_keeps_configured_jobs pending_first_run synced_world
           (hourly_job "100" "tv" (Some 1700000000))).
  - apply list_elem_of_here.
  - vm_compute. apply list_elem_of_here.
Defined.

Lemma reconcile_calls_are_the_diff_witness :
  ("200" ∈ desired_ids stale_world /\ "200" ∉ observed_ids stale_world)
  /\ ("100" ∈ observed_ids stale_world /\ "100" ∉ desired_ids stale_world).
Proof.
  split.
  - apply (reconcile_calls_are_the_diff pending_first_run stale_world "200").
    vm_compute. apply list_elem_of_here.
  - apply (reconcile_calls_are_the_diff pending_first_run stale_world "100").
    vm_compute. apply list_elem_of_here.
Defined.

Lemma reconcile_twice_witness :
  added_ids (new_calls (setup_jobs pending_first_run stale_world).2
               (setup_jobs pending_first_run
                  (setup_jobs pending_first_run stale_world).2).2) = []
  /\ removed_ids (new_calls (setup_jobs pending_first_run stale_world).2
                    (setup_jobs pending_first_run
                       (setup_jobs pending_first_run stale_world).2).2) = []
  /\ forall j,
       j ∈ observed_jobs (setup_jobs pending_first_run
                            (setup_jobs pending_first_run stale_world).2).2
       <-> j ∈ observed_jobs (setup_jobs pending_first_run stale_world).2.
Proof.
  apply (reconcile_twice pending_first_run stale_world
           (setup_jobs pending_first_run stale_world).2 [tv_at 200]).
  - reflexivity.
  - reflexivity.
  - intros H. discriminate H.
  - vm_compute. reflexivity.
Defined.

Lemma interval_takes_precedence_witness :
  add_configured pending_first_run (both_triggers 100) "100"
  = add_configured pending_first_run
      {| addr := 100; fields := delete "schedule" (fields (both_triggers 100)) |} "100".
Proof.
  apply (interval_takes_precedence pending_first_run (both_triggers 100) "100"
           (VDict {[ "hours" := VInt 1 ]})).
  vm_compute. reflexivity.
Defined.

Lemma list_schedules_witness :
  schedules pending_first_run list_request synced_world
  = (Return {| body := {[ "schedules" := VList (map entry (enabled_list synced_world)) ]};
               status := 200 |}, synced_world).
Proof. apply (list_schedules pending_first_run list_request synced_world). reflexivity. Defined.

Lemma disabled_config_edges_witness :
  schedules pending_first_run list_request disabled_world
  = (Return {| body := {[ "schedules" := VList [] ]}; status := 200 |}, disabled_world)
  /\ get_schedule 100 disabled_world
     = (Raise (TypeError "'bool' object is not iterable"), disabled_world)
  /\ update_schedule pending_first_run list_request 100 disabled_world
     = (Raise (TypeError "object of type 'bool' has no len()"), disabled_world)
  /\ delete_schedule pending_first_run 100 disabled_world
     = (Raise (TypeError "object of type 'bool' has no len()"), disabled_world).
Proof.
  destruct (disabled_config_edges pending_first_run list_request 100 disabled_world eq_refl)
    as (H1 & H2 & H3 & H4).
  split_and!; [exact (H1 eq_refl)|exact H2|exact H3|exact H4].
Defined.

Lemma create_without_body_resets_disabled_witness :
  schedules pending_first_run empty_post disabled_world
  = (Raise (KeyError "schedule"), enabled disabled_world)
  /\ config_schedules (manager (enabled disabled_world)) = Some (Schedules []).
Proof.
  split; [|reflexivity].
  apply (create_without_body_resets_disabled pending_first_run empty_post disabled_world);
    reflexivity.
Defined.

Lemma create_then_get_witness :
  exists d,
    get_schedule 200
      (schedules pending_first_run (create_request (tv_at 200)) synced_world).2
    = (Return {| body := {[ "schedule" := VDict d ]}; status := 200 |},
       (schedules pending_first_run (create_request (tv_at 200)) synced_world).2)
    /\ d !! "id" = Some (VInt 200)
    /\ forall k, k ≠ "id" -> k ≠ "next_run_time" -> d !! k = fields (tv_at 200) !! k.
Proof.
  apply (create_then_get pending_first_run (create_request (tv_at 200)) (tv_at 200)
           synced_world
           (schedules pending_first_run (create_request (tv_at 200)) synced_world).2
           {| body := {[ "schedule" := entry (tv_at 200) ]}; status := 200 |}).
  - reflexivity.
  - reflexivity.
  - reflexivity.
  - intros s Hs. change (enabled_list synced_world) with [tv_at 100] in Hs.
    apply list_elem_of_singleton in Hs. subst s. intros H. discriminate H.
  - vm_compute. reflexivity.
Defined.

Lemma delete_then_get_witness :
  config_schedules
    (manager (delete_schedule pending_first_run 100 synced_world).2) = Some (Schedules [])
  /\ get_schedule 100 (delete_schedule pending_first_run 100 synced_world).2
     = (Return {| body := {[ "error" := VStr "invalid schedule id" ]}; status := 400 |},
        (delete_schedule pending_first_run 100 synced_world).2).
Proof.
  destruct (delete_then_get pending_first_run 100 synced_world
              (delete_schedule pending_first_run 100 synced_world).2
              {| body := {[ "detail" := VStr "deleted schedule" ]}; status := 400 |}
              [tv_at 100] 0%nat (tv_at 100)) as (H1 & _ & _ & H2).
  - reflexivity.
  - apply NoDup_singleton.
  - reflexivity.
  - vm_compute. reflexivity.
  - split; [exact H1|exact H2].
Defined.

Lemma not_found_answers_400_witness :
  get_schedule 999 synced_world
  = (Return {| body := {[ "error" := VStr "invalid schedule id" ]}; status := 400 |},
     synced_world)
  /\ update_schedule pending_first_run patch_request 999 synced_world
     = (Return {| body := {[ "error" := VStr "Invalid id" ]}; status := 400 |},
        synced_world).
Proof.
  apply (not_found_answers_400 pending_first_run patch_request 999 synced_world
           [tv_at 100]).
  - reflexivity.
  - intros s Hs. apply list_elem_of_singleton in Hs. subst s. intros H. discriminate H.
Defined.

Lemma get_schedule_needs_scheduler_witness :
  get_schedule 100 first_start
  = (Raise (AttributeError "'NoneType' object has no attribute"), first_start).
Proof.
  apply (get_schedule_needs_scheduler 100 first_start [tv_at 100] 0%nat (tv_at 100));
    reflexivity.
Defined.


Lemma setup_jobs_guards_witness :
  setup_jobs pending_first_run cli_world = (Return tt, cli_world)
  /\ exists w',
       setup_jobs pending_first_run first_start
       = (Raise (AttributeError "'NoneType' object has no attribute"), w')
       /\ calls w' = calls first_start /\ manager w' = manager first_start
       /\ scheduler w' = None.
Proof.
  split.
  - apply (setup_jobs_guards pending_first_run cli_world). reflexivity.
  - apply (setup_jobs_guards pending_first_run first_start); reflexivity.
Defined.

Lemma setup_scheduler_named_zone_witness :
  setup_scheduler pending_first_run (Return helsinki) first_start
  = setup_jobs pending_first_run
      (with_scheduler first_start
         (Some {| timezone := helsinki; coalesce := true; misfire_grace_time := 86400;
                  jobs := engine (manager first_start); running := false |}))
  /\ scheduler_timezone
       (setup_scheduler pending_first_run (Return helsinki) first_start).2
     = Some helsinki.
Proof.
  apply (setup_scheduler_named_zone pending_first_run helsinki first_start).
  intros H. discriminate H.
Defined.

Lemma setup_scheduler_propagates_witness :
  setup_scheduler pending_first_run (Raise (IOError "/etc/localtime")) first_start
  = (Raise (IOError "/etc/localtime"), first_start).
Proof.
  apply (setup_scheduler_propagates pending_first_run (IOError "/etc/localtime")
           first_start).
  - intros H. discriminate H.
  - intros msg H. discriminate H.
Defined.

Lemma update_keeps_existing_job_witness :
  hourly_job "100" "tv" (Some 1700000000)
  ∈ observed_jobs (update_schedule pending_first_run patch_request 100 synced_world).2
  /\ (unicode 100
      ∉ added_ids (new_calls synced_world
                     (update_schedule pending_first_run patch_request 100 synced_world).2))
  /\ (unicode 100
      ∉ removed_ids (new_calls synced_world
                       (update_schedule pending_first_run patch_request 100
                          synced_world).2))
  /\ config_schedules
       (manager (update_schedule pending_first_run patch_request 100 synced_world).2)
     = Some (Schedules (<[0%nat := updated (method patch_request) (tv_at 100) movies_patch]>
                          [tv_at 100])).
Proof.
  apply (update_keeps_existing_job pending_first_run patch_request 100 synced_world
           (update_schedule pending_first_run patch_request 100 synced_world).2
           (jsonify "schedule"
              (VDict (copy_with_id (updated PATCH (tv_at 100) movies_patch) 100)))
           [tv_at 100] 0%nat (tv_at 100) movies_patch
           (hourly_job "100" "tv" (Some 1700000000))).
  - reflexivity.
  - reflexivity.
  - reflexivity.
  - vm_compute. reflexivity.
  - apply list_elem_of_here.
  - vm_compute. reflexivity.
Defined.

Lemma replace_with_listed_entry_witness :
  update_schedule pending_first_run
    {| method := POST;
       json_schedule := Some {| addr := 300; fields := copy_with_id (tv_at 100) 100 |} |}
    100 synced_world
  = (save_config;; config_changed pending_first_run;;
     mret (jsonify "schedule" (VDict (copy_with_id (tv_at 100) 100))))
      (with_schedules synced_world [tv_at 100]).
Proof.
  apply (replace_with_listed_entry pending_first_run POST 300 100 synced_world
           [tv_at 100] 0%nat (tv_at 100)).
  - reflexivity.
  - reflexivity.
  - vm_compute. reflexivity.
Defined.

Lemma update_merges_or_replaces_witness :
  exists t',
    config_schedules
      (manager (update_schedule pending_first_run patch_request 100 synced_world).2)
    = Some (Schedules (<[0%nat := t']> [tv_at 100]))
    /\ addr t' = 100
    /\ fields t' !! "tasks" = Some (VStr "movies")
    /\ fields t' !! "interval" = Some (VDict {[ "hours" := VInt 1 ]}).
Proof.
  destruct (update_merges_or_replaces pending_first_run patch_request 100 synced_world
              (update_schedule pending_first_run patch_request 100 synced_world).2
              (jsonify "schedule"
                 (VDict (copy_with_id (updated PATCH (tv_at 100) movies_patch) 100)))
              [tv_at 100] 0%nat (tv_at 100) movies_patch)
    as (t' & H1 & _ & H2 & H3 & _).
  - reflexivity.
  - reflexivity.
  - reflexivity.
  - vm_compute. reflexivity.
  - exists t'. split_and!; [exact H1|exact H2|exact (H3 "tasks")|exact (H3 "interval")].
Defined.

Lemma missing_schedule_answers_unreachable_witness :
  status (jsonify "schedule" (entry (tv_at 200))) = 200
  /\ (status (error_response "Invalid id" 400) = 200
      \/ status (error_response "Invalid id" 400) = 400).
Proof.
  split.
  - apply (missing_schedule_answers_unreachable pending_first_run
             (create_request (tv_at 200)) 0 synced_world
             (schedules pending_first_run (create_request (tv_at 200)) synced_world).2
             (jsonify "schedule" (entry (tv_at 200)))).
    vm_compute. reflexivity.
  - apply (missing_schedule_answers_unreachable pending_first_run patch_request 999
             synced_world synced_world (error_response "Invalid id" 400)).
    vm_compute. reflexivity.
Defined.

Lemma reconcile_raises_on_missing_keys_witness :
  setup_jobs pending_first_run missing_trigger_world
  = (Raise (KeyError "schedule"), missing_trigger_world)
  /\ setup_jobs pending_first_run missing_tasks_world
     = (Raise (KeyError "tasks"), missing_tasks_world).
Proof.
  split.
  - apply (reconcile_raises_on_missing_keys pending_first_run missing_trigger_world
             live_scheduler [tv_at 100] [] movies_patch); try reflexivity.
    + intros x Hx. apply list_elem_of_singleton in Hx. subst x.
      vm_compute. apply list_elem_of_here.
    + vm_compute. intros H. apply list_elem_of_singleton in H. discriminate H.
  - apply (reconcile_raises_on_missing_keys pending_first_run missing_tasks_world
             live_scheduler [tv_at 100] [] (no_tasks 400)); try reflexivity.
    + intros x Hx. apply list_elem_of_singleton in Hx. subst x.
      vm_compute. apply list_elem_of_here.
    + vm_compute. intros H. apply list_elem_of_singleton in H. discriminate H.
Defined.

Lemma create_without_trigger_persists_then_raises_witness :
  schedules pending_first_run (create_request movies_patch) synced_world
  = (Raise (KeyError "schedule"),
     saved (with_schedules synced_world (enabled_list synced_world ++ [movies_patch]))).
Proof.
  apply (create_without_trigger_persists_then_raises pending_first_run
           (create_request movies_patch) movies_patch synced_world live_scheduler);
    try reflexivity.
  - intros x Hx. change (enabled_list synced_world) with [tv_at 100] in Hx.
    apply list_elem_of_singleton in Hx. subst x. vm_compute. apply list_elem_of_here.
  - vm_compute. intros H. apply list_elem_of_singleton in H. discriminate H.
Defined.

Lemma create_enables_scheduling_witness :
  schedules pending_first_run (create_request (tv_at 200)) disabled_stale_world
  = (save_config;; config_changed pending_first_run;;
     mret (jsonify "schedule" (VDict (copy_with_id (tv_at 200) 200))))
      (with_schedules disabled_stale_world [tv_at 200])
  /\ desired (saved (with_schedules disabled_stale_world [tv_at 200]))
     = Schedules [tv_at 200]
  /\ (config_schedules
        (manager (schedules pending_first_run (create_request (tv_at 200))
                    disabled_stale_world).2) = Some (Schedules [tv_at 200])
      /\ scheduler_running
           (schedules pending_first_run (create_request (tv_at 200))
              disabled_stale_world).2 = Some true)
  /\ exists w' job,
       schedules pending_first_run (create_request (tv_at 200)) disabled_stale_world
       = (Return (jsonify "schedule" (VDict (copy_with_id (tv_at 200) 200))), w')
       /\ added_ids (new_calls disabled_stale_world w') = [unicode 200]
       /\ (forall jid, jid ∈ removed_ids (new_calls disabled_stale_world w')
                       <-> jid ∈ observed_ids disabled_stale_world)
       /\ (forall j, j ∈ observed_jobs w' <-> j = job)
       /\ Job.id job = unicode 200
       /\ trigger_of (tv_at 200) = Some (Job.trigger job, VDict (Job.trigger_args job))
       /\ scheduler_running w' = Some true.
Proof.
  destruct (create_enables_scheduling lenient_cron pending_first_run
              (create_request (tv_at 200)) (tv_at 200) disabled_stale_world
              eq_refl eq_refl (or_intror eq_refl)) as (H1 & H2 & H3 & H4).
  split; [exact H1|]. split; [exact (proj2 (H2 eq_refl))|]. split.
  - destruct (H3 (jsonify "schedule" (VDict (copy_with_id (tv_at 200) 200)))
                (schedules pending_first_run (create_request (tv_at 200))
                   disabled_stale_world).2 eq_refl)
      as (_ & Hc & _ & Hr & _).
    + vm_compute. reflexivity.
    + split; [exact Hc|exact Hr].
  - apply (H4 {| timezone := utc; coalesce := true; misfire_grace_time := 86400;
                 jobs := [hourly_job "100" "tv" (Some 1700000000)]; running := false |}).
    + reflexivity.
    + reflexivity.
    + reflexivity.
    + vm_compute. reflexivity.
    + intros trigger kw _. exists None. reflexivity.
    + vm_compute. apply NoDup_singleton.
    + vm_compute. intros H. apply list_elem_of_singleton in H. discriminate H.
Defined.
